(** * Validation script [onnx_validate_furiosa_runtime.py]

    A shallow embedding of the evaluation script: the top-k accuracy
    function [accuracy_np], the choice of the model artifact from
    [--model-input], and the batch loop of [main] with its running averages,
    latency totals and console output.

    Conventions of the embedding.
    - Python [int] is [Z] (or [nat] for sizes and loop indices).
    - Python and numpy floats are idealised as rationals: [pyfloat] is a
      rational in lowest terms or [NaN].  Rounding, overflow and infinities
      are outside the model; numpy's [nan] for the mean of an empty array is
      kept, and so is Python's [ZeroDivisionError] on a zero divisor.
    - Exceptions are values of [exn]; a computation returns [result].
    - The clocks, the file system, the inference session and the loader are
      inputs of [main]: the k-th reading of a clock is a function of k.
    - The calls to these collaborators are recorded, in the order in which
      the statements make them, in the [trace] of the world. *)

From Stdlib Require Import List ZArith QArith Qreduction Bool Arith Lia.
From Stdlib Require Import Permutation Sorted.
From Stdlib Require String Ascii.
Import String.StringSyntax Ascii.AsciiSyntax.
Delimit Scope string_scope with string.
Delimit Scope char_scope with char.
Import ListNotations.

Abbreviation string := String.string.

Local Open Scope Z_scope.

(** ** Exceptions and results *)

Inductive exn : Type :=
| ZeroDivisionError                    (* raised by [/] and [%] on a zero divisor *)
| UnboundLocalError (var : string)     (* a local variable read before any assignment *)
| FileNotFoundError (path : string)    (* [open] on a path that holds no file *)
| IndexError                           (* an index outside an axis *)
| ValueError                           (* numpy shapes that do not broadcast *)
| ScriptError (msg : string).          (* a [raise] statement of the script itself *)

Inductive result (A : Type) : Type :=
| Ok (a : A)
| Raise (e : exn).
Arguments Ok {A} a.
Arguments Raise {A} e.

Definition rbind {A B} (r : result A) (k : A -> result B) : result B :=
  match r with
  | Ok a => k a
  | Raise e => Raise e
  end.

Declare Scope py_scope.
Delimit Scope py_scope with py.
Notation "x <- e ;; k" := (rbind e (fun x => k))
  (at level 61, e at next level, right associativity) : py_scope.

(** An exception that the interpreter raises on its own, as opposed to one
    that a [raise] statement of the script reports. *)
Definition language_level_fault (e : exn) : bool :=
  match e with
  | ScriptError _ => false
  | _ => true
  end.

(** ** Floats *)

Inductive pyfloat : Type :=
| Real (q : Q)
| NaN.

Definition fadd (a b : pyfloat) : pyfloat :=
  match a, b with
  | Real x, Real y => Real (Qred (x + y))
  | _, _ => NaN
  end.

Definition fsub (a b : pyfloat) : pyfloat :=
  match a, b with
  | Real x, Real y => Real (Qred (x - y))
  | _, _ => NaN
  end.

Definition fmul (a b : pyfloat) : pyfloat :=
  match a, b with
  | Real x, Real y => Real (Qred (x * y))
  | _, _ => NaN
  end.

(** Python's [a / b] on floats: a zero divisor raises, [nan] propagates. *)
Definition fdiv (a b : pyfloat) : result pyfloat :=
  match b with
  | Real y =>
      if Qeq_bool y 0 then Raise ZeroDivisionError
      else match a with
           | Real x => Ok (Real (Qred (x / y)))
           | NaN => Ok NaN
           end
  | NaN => Ok NaN
  end.

Definition of_int (z : Z) : pyfloat := Real (inject_Z z).
Definition of_nat (n : nat) : pyfloat := of_int (Z.of_nat n).

(** Python's [a / b] on two ints (true division, a float). *)
Definition int_truediv (a b : Z) : result pyfloat := fdiv (of_int a) (of_int b).

(** Python's [a % b] on ints: the sign of the divisor, and a fault on zero. *)
Definition py_mod (a b : Z) : result Z :=
  if b =? 0 then Raise ZeroDivisionError else Ok (a mod b).

(** ** numpy pieces used by [accuracy_np] *)

Definition row := list Q.
Definition matrix := list row.

Definition score (r : row) (i : nat) : Q := nth i r 0%Q.

(** [np.argsort] along the class axis.  numpy promises a permutation of the
    indices that puts the scores in ascending order; the order among equal
    scores depends on the sort it picks and is not part of the interface. *)
Class ArgSort : Type := {
  argsort : row -> list nat;
  argsort_perm : forall r, Permutation (argsort r) (seq 0 (length r));
  argsort_sorted :
    forall r, StronglySorted (fun i j => (score r i <= score r j)%Q) (argsort r)
}.

(** One such sort, used for the concrete runs: equal scores keep their index
    order, as in every stable sort.  numpy's classic introsort agrees with
    it on short rows, which it sorts by insertion; numpy promises nothing on
    ties, and on longer rows its order among equal scores may differ. *)
Fixpoint insert_index (r : row) (i : nat) (l : list nat) : list nat :=
  match l with
  | [] => [i]
  | j :: l' =>
      if Qle_bool (score r i) (score r j) then i :: l
      else j :: insert_index r i l'
  end.

Definition insertion_argsort (r : row) : list nat :=
  fold_right (insert_index r) [] (seq 0 (length r)).



(** [np.equal] on an index and a label. *)
Definition np_equal (i : nat) (t : Z) : bool := Z.of_nat i =? t.

(** Broadcasting of the leading axis of two arrays: equal lengths pair up,
    a length of one is repeated, anything else is a [ValueError]. *)
Definition broadcast {A B} (xs : list A) (ys : list B) : result (list (A * B)) :=
  if Nat.eqb (length xs) (length ys) then Ok (combine xs ys)
  else match xs, ys with
       | [x], _ => Ok (map (fun y => (x, y)) ys)
       | _, [y] => Ok (map (fun x => (x, y)) xs)
       | _, _ => Raise ValueError
       end.

(** [a.sum(axis=1)] of a boolean row: the number of [True]. *)
Definition count_true (bs : list bool) : Z :=
  fold_right (fun (b : bool) acc => (if b then 1 else 0) + acc) 0 bs.

Definition zsum (l : list Z) : Z := fold_right Z.add 0 l.

(** [a.mean()] of an integer or boolean vector; [nan] on an empty one. *)
Definition np_mean (l : list Z) : pyfloat :=
  match l with
  | [] => NaN
  | _ => Real (Qred (inject_Z (zsum l) / inject_Z (Z.of_nat (length l))))
  end.

(** [a[:, 0]]: the first entry of every row, [IndexError] on a row without
    entries.  A list of rows does not record the number of classes of an
    array without rows: such an array is taken to have at least one class
    (numpy raises [IndexError] on the shape (0, 0)). *)
Fixpoint column0 (m : list (list nat)) : result (list nat) :=
  match m with
  | [] => Ok []
  | r :: m' =>
      match r with
      | [] => Raise IndexError
      | i :: _ =>
          match column0 m' with
          | Ok c => Ok (i :: c)
          | Raise e => Raise e
          end
      end
  end.

Section Accuracy.

Context {AS : ArgSort}.

(** [np.argsort(output, axis=1)[:, ::-1]] *)
Definition max_indices_of (output : matrix) : list (list nat) :=
  map (fun r => rev (argsort r)) output.

(** One row of [np.equal(max_indices[:, :5], target[:, np.newaxis])] summed
    along axis 1, and one entry of [np.equal(max_indices[:, 0], target)]. *)
Definition top5_hits (p : list nat * Z) : Z :=
  count_true (map (fun i => np_equal i (snd p)) (fst p)).

Definition top1_hit (p : nat * Z) : Z :=
  if np_equal (fst p) (snd p) then 1 else 0.

(** Lines 177-181. *)
Definition accuracy_np (output : matrix) (target : list Z)
  : result (pyfloat * pyfloat) :=
  (let max_indices := max_indices_of output in
   eq5 <- broadcast (map (firstn 5) max_indices) target ;;
   let top5 := fmul (of_int 100) (np_mean (map top5_hits eq5)) in
   col <- column0 max_indices ;;
   eq1 <- broadcast col target ;;
   let top1 := fmul (of_int 100) (np_mean (map top1_hit eq1)) in
   Ok (top1, top5))%py.

End Accuracy.

(** ** [str.endswith] *)

Fixpoint is_prefix (p s : list Ascii.ascii) : bool :=
  match p, s with
  | [], _ => true
  | _ :: _, [] => false
  | a :: p', b :: s' => Ascii.eqb a b && is_prefix p' s'
  end.

(** [s.endswith(suffix)]: the suffix read backwards starts [s] read
    backwards. *)
Definition endswith (s suffix : string) : bool :=
  is_prefix (rev (String.list_ascii_of_string suffix))
            (rev (String.list_ascii_of_string s)).

(** ** Running averages *)

(** Modelled from the spec: [utils.AverageMeter] is imported by the script
    and its source is not among the files.  The spec's RunningAverage holds
    the most recent sample, the sum, the count and the average sum/count; it
    is created with count 0 and [update(sample, weight)] does
    [sum += sample*weight; count += weight; value = sample].  The other
    fields start at 0 like the count, and the division is Python's. *)
Record AverageMeter : Type := {
  val : pyfloat;
  avg : pyfloat;
  sum : pyfloat;
  count : Z
}.

Definition new_meter : AverageMeter :=
  {| val := of_int 0; avg := of_int 0; sum := of_int 0; count := 0 |}.

Definition update (m : AverageMeter) (v : pyfloat) (n : Z) : result AverageMeter :=
  (let sum' := fadd (sum m) (fmul v (of_int n)) in
   let count' := count m + n in
   a <- fdiv sum' (of_int count') ;;
   Ok {| val := v; avg := a; sum := sum'; count := count' |})%py.

(** ** Console output *)

(** The values handed to [format] for one progress line, before they are
    rendered with three decimals. *)
Record progress : Type := {
  p_index : nat;            (* {0}: i *)
  p_total : nat;            (* {1}: len(loader) *)
  p_time_val : pyfloat;     (* batch_time.val *)
  p_time_avg : pyfloat;     (* batch_time.avg *)
  p_rate_avg : pyfloat;     (* rate_avg, printed as "/s" *)
  p_ms_avg : pyfloat;       (* ms_avg, printed as "ms/sample" *)
  p_top1_val : pyfloat;
  p_top1_avg : pyfloat;
  p_top5_val : pyfloat;
  p_top5_avg : pyfloat
}.

Inductive line : Type :=
| Progress (p : progress)
| Summary (top1_avg top1a top5_avg top5a : pyfloat)
| Latency (ms : pyfloat).

(** The batch indices of the progress lines of a console, in order. *)
Fixpoint progress_indices (out : list line) : list nat :=
  match out with
  | [] => []
  | Progress p :: rest => p_index p :: progress_indices rest
  | _ :: rest => progress_indices rest
  end.

(** ** The world of a run: clock readings, console and calls so far *)

(** The calls of a run to its collaborators and to [accuracy_np], in the
    order in which they are made. *)
Inductive event : Type :=
| Fetched (i : nat)       (* the [for] statement asks the loader for item i *)
| PerfRead (k : nat)      (* the k-th call of time.perf_counter_ns() *)
| Inferred (i : nat)      (* session.run on the input of batch i *)
| Scored (i : nat)        (* accuracy_np on the output of batch i *)
| TimeRead (k : nat).     (* the k-th call of time.time() *)

Record World : Type := {
  perf_calls : nat;         (* calls of time.perf_counter_ns() so far *)
  time_calls : nat;         (* calls of time.time() so far *)
  stdout : list line;       (* lines printed so far, oldest first *)
  trace : list event        (* calls made so far, oldest first *)
}.

Definition world0 : World :=
  {| perf_calls := 0; time_calls := 0; stdout := []; trace := [] |}.

(** A statement: it changes the world and returns or raises; what was
    printed before an exception stays printed. *)
Definition cmd (A : Type) : Type := World -> World * result A.

Definition ret {A} (a : A) : cmd A := fun w => (w, Ok a).

Definition cbind {A B} (c : cmd A) (k : A -> cmd B) : cmd B :=
  fun w =>
    match c w with
    | (w', Ok a) => k a w'
    | (w', Raise e) => (w', Raise e)
    end.

Definition lift {A} (r : result A) : cmd A := fun w => (w, r).

Definition print (l : line) : cmd unit :=
  fun w => ({| perf_calls := perf_calls w; time_calls := time_calls w;
               stdout := stdout w ++ [l]; trace := trace w |}, Ok tt).

(** The world after one more call. *)
Definition logged (e : event) (w : World) : World :=
  {| perf_calls := perf_calls w; time_calls := time_calls w;
     stdout := stdout w; trace := trace w ++ [e] |}.

Declare Scope cmd_scope.
Delimit Scope cmd_scope with cmd.
Notation "x <- e ;; k" := (cbind e (fun x => k))
  (at level 61, e at next level, right associativity) : cmd_scope.
Notation "e ;;; k" := (cbind e (fun _ => k))
  (at level 61, right associativity) : cmd_scope.

(** ** Command line, model artifact, batches *)

Record Args : Type := {
  model_input : string;     (* --model-input, default "" *)
  batch_size : Z;           (* -b, default 256 *)
  print_freq : Z            (* -p, default 500 *)
}.

(** What [furiosa.runtime.session.create] is given. *)
Inductive artifact : Type :=
| ModelBytes (content : list Byte.byte)    (* the result of f.read() *)
| ModelPath (path : string).               (* args.model_input itself *)

(** The collaborators of the script: the loader's tensors, the inference
    runtime, the two clocks and the file system. *)
Class Runtime : Type := {
  tensor : Type;                                 (* a batch of preprocessed images *)
  size0 : tensor -> nat;                         (* input.size(0) *)
  session : Type;
  create : artifact -> session;                  (* furiosa.runtime.session.create *)
  run : session -> tensor -> list matrix;        (* session.run([x]).numpy() *)
  perf_counter_ns_at : nat -> Z;                 (* k-th reading of the ns counter *)
  time_at : nat -> Q;                            (* k-th reading of time.time() *)
  files : string -> option (list Byte.byte)      (* the file system *)
}.

Section Main.

Context {AS : ArgSort} {RT : Runtime}.

Record Batch : Type := {
  input : tensor;
  target : list Z
}.

Definition perf_counter_ns : cmd Z :=
  fun w => ({| perf_calls := S (perf_calls w); time_calls := time_calls w;
               stdout := stdout w;
               trace := trace w ++ [PerfRead (perf_calls w)] |},
            Ok (perf_counter_ns_at (perf_calls w))).

Definition time_time : cmd pyfloat :=
  fun w => ({| perf_calls := perf_calls w; time_calls := S (time_calls w);
               stdout := stdout w;
               trace := trace w ++ [TimeRead (time_calls w)] |},
            Ok (Real (time_at (time_calls w)))).

(** The [for] statement asking the loader for item [i]: the loader loads
    and yields the batch, or is exhausted. *)
Definition next_batch (i : nat) : cmd unit :=
  fun w => (logged (Fetched i) w, Ok tt).

(** [session.run([input.data.numpy()]).numpy()] on batch [i]. *)
Definition session_run (sess : session) (i : nat) (x : tensor)
  : cmd (list matrix) :=
  fun w => (logged (Inferred i) w, Ok (run sess x)).

(** The call [accuracy_np(output, target.numpy())] on batch [i]. *)
Definition call_accuracy_np (i : nat) (output : matrix) (target : list Z)
  : cmd (pyfloat * pyfloat) :=
  fun w => (logged (Scored i) w, accuracy_np output target).

(** [open(path, "rb")] followed by [f.read()]: the path names a file, or
    no file is found.  The other failures of [open] (a directory, a file
    that may not be read) are not modelled. *)
Definition read_file (path : string) : cmd (list Byte.byte) :=
  match files path with
  | Some content => ret content
  | None => lift (Raise (FileNotFoundError path))
  end.

(** Lines 126-130: the two [if] statements that bind [graph]; [None] is the
    variable left unbound. *)
Definition select_graph (args : Args) : cmd (option artifact) :=
  (graph <- (if endswith (model_input args) ".dfg"%string
             then (content <- read_file (model_input args) ;;
                   ret (Some (ModelBytes content)))
             else ret None) ;;
   ret (if endswith (model_input args) ".onnx"%string
        then Some (ModelPath (model_input args))
        else graph))%cmd.

(** Reading the local variable [graph]. *)
Definition read_graph (graph : option artifact) : cmd artifact :=
  match graph with
  | Some g => ret g
  | None => lift (Raise (UnboundLocalError "graph"%string))
  end.

(** The local variables of [main] that the loop updates. *)
Record Locals : Type := {
  batch_time : AverageMeter;
  top1 : AverageMeter;
  top5 : AverageMeter;
  end_ : pyfloat;
  total_predictions : Z;
  elapsed_time : Z
}.

(** [output[0]] on the list of output arrays. *)
Definition first_output (outs : list matrix) : result matrix :=
  match outs with
  | o :: _ => Ok o
  | [] => Raise IndexError
  end.

(** Lines 153-166: the progress line. *)
Definition print_progress (args : Args) (i total : nat) (b : Batch)
    (bt t1 t5 : AverageMeter) : cmd unit :=
  (rate_avg <- lift (fdiv (of_nat (size0 (input b))) (avg bt)) ;;
   ms_avg <- lift (fdiv (fmul (of_int 100) (avg bt)) (of_nat (size0 (input b)))) ;;
   print (Progress {| p_index := i; p_total := total;
                      p_time_val := val bt; p_time_avg := avg bt;
                      p_rate_avg := rate_avg; p_ms_avg := ms_avg;
                      p_top1_val := val t1; p_top1_avg := avg t1;
                      p_top5_val := val t5; p_top5_avg := avg t5 |}))%cmd.

(** Lines 137-166: the body of the [for] loop on batch [i]. *)
Definition loop_body (args : Args) (sess : session) (total : nat)
    (i : nat) (b : Batch) (l : Locals) : cmd Locals :=
  (start <- perf_counter_ns ;;
   outs <- session_run sess i (input b) ;;
   stop <- perf_counter_ns ;;
   let elapsed := elapsed_time l + (stop - start) in
   output <- lift (first_output outs) ;;
   prec <- call_accuracy_np i output (target b) ;;
   top1' <- lift (update (top1 l) (fst prec) (Z.of_nat (size0 (input b)))) ;;
   top5' <- lift (update (top5 l) (snd prec) (Z.of_nat (size0 (input b)))) ;;
   now <- time_time ;;
   batch_time' <- lift (update (batch_time l) (fsub now (end_ l)) 1) ;;
   end' <- time_time ;;
   let predictions := total_predictions l + 1 in
   r <- lift (py_mod (Z.of_nat i) (print_freq args)) ;;
   (if r =? 0 then print_progress args i total b batch_time' top1' top5'
    else ret tt) ;;;
   ret {| batch_time := batch_time'; top1 := top1'; top5 := top5';
          end_ := end'; total_predictions := predictions;
          elapsed_time := elapsed |})%cmd.

(** [for i, (input, target) in enumerate(loader)], from index [i] on: every
    pass starts by asking the loader for the next item, and the loop ends
    when the loader has none. *)
Fixpoint loop (args : Args) (sess : session) (total : nat)
    (i : nat) (batches : list Batch) (l : Locals) : cmd Locals :=
  match batches with
  | [] => (next_batch i ;;; ret l)%cmd
  | b :: rest =>
      (next_batch i ;;;
       l' <- loop_body args sess total i b l ;;
       loop args sess total (S i) rest l')%cmd
  end.

(** Lines 121-123 and 132-133: the meters and totals before the loop. *)
Definition initial_locals (end0 : pyfloat) : Locals :=
  {| batch_time := new_meter; top1 := new_meter; top5 := new_meter;
     end_ := end0; total_predictions := 0; elapsed_time := 0 |}.

(** Lines 121-166 of [main]: meters, model artifact, session and loop.  The
    loader is the list of the batches it yields; [len(loader)] is its
    length. *)
Definition evaluate (args : Args) (loader : list Batch) : cmd Locals :=
  (end0 <- time_time ;;
   graph <- select_graph args ;;
   g <- read_graph graph ;;
   let sess := create g in
   loop args sess (length loader) 0 loader (initial_locals end0))%cmd.

(** Lines 168-174: the summary and the average latency. *)
Definition report (l : Locals) : cmd unit :=
  (print (Summary (avg (top1 l)) (fsub (of_int 100) (avg (top1 l)))
                  (avg (top5 l)) (fsub (of_int 100) (avg (top5 l)))) ;;;
   latency <- lift (int_truediv (elapsed_time l) (total_predictions l)) ;;
   ms <- lift (fdiv latency (of_int 1000000)) ;;
   print (Latency ms))%cmd.

Definition main (args : Args) (loader : list Batch) : cmd unit :=
  (l <- evaluate args loader ;; report l)%cmd.

End Main.

(** * Vocabulary of the properties *)

(** The class with the scores above all others sits at index [m]. *)
Definition strict_max (r : row) (m : nat) : Prop :=
  (m < length r)%nat /\
  forall j, (j < length r)%nat -> j <> m -> (score r j < score r m)%Q.



(** The n durations that the readings [first], [first+1], then [first+2],
    [first+3], ... of the nanosecond counter enclose, added up. *)
Fixpoint inference_durations (perf : nat -> Z) (first n : nat) : Z :=
  match n with
  | O => 0
  | S n' => (perf (S first) - perf first)
            + inference_durations perf (S (S first)) n'
  end.

(** The calls of [n] passes of the loop from batch [i] on, with [pc]
    readings of the nanosecond counter and [tc] of the wall clock taken
    before, followed by the request that finds the loader exhausted. *)
Fixpoint loop_events (i pc tc n : nat) : list event :=
  match n with
  | O => [Fetched i]
  | S n' =>
      [Fetched i; PerfRead pc; Inferred i; PerfRead (S pc); Scored i;
       TimeRead tc; TimeRead (S tc)]
      ++ loop_events (S i) (S (S pc)) (S (S tc)) n'
  end.

(** The world after the reading [end = time.time()] of line 124. *)
Definition after_first_reading (w : World) : World :=
  {| perf_calls := perf_calls w; time_calls := S (time_calls w);
     stdout := stdout w; trace := trace w ++ [TimeRead (time_calls w)] |}.



(** The claim of an explicit error: the run ends in an exception that a
    [raise] statement of the script reports. *)
Definition explicit_error {A} (r : result A) : Prop :=
  exists msg, r = Raise (ScriptError msg).

Section Vocabulary.

Context {AS : ArgSort} {RT : Runtime}.

(** The class ranked first by the code, 0 on a row without classes. *)
Definition top_index (r : row) : nat := hd 0%nat (rev (argsort r)).

Definition top5_indices (r : row) : list nat := firstn 5 (rev (argsort r)).

(** The code's test [i % args.print_freq == 0]. *)
Definition prints_at (args : Args) (i : nat) : bool :=
  Z.of_nat i mod print_freq args =? 0.


(** The number of samples of a run, as the meters weigh them. *)
Definition samples (loader : list Batch) : Z :=
  zsum (map (fun b => Z.of_nat (size0 (input b))) loader).

End Vocabulary.

(** * Properties *)

(** ** The insertion sort is an [ArgSort] *)

Section InsertionSort.

Variable r : row.

Let ascending (i j : nat) : Prop := (score r i <= score r j)%Q.

Lemma insert_index_perm (i : nat) (l : list nat) :
  Permutation (insert_index r i l) (i :: l).
Proof.
  induction l as [|j l IH]; simpl.
  - apply Permutation_refl.
  - destruct (Qle_bool (score r i) (score r j)).
    + apply Permutation_refl.
    + apply perm_trans with (j :: i :: l).
      * apply perm_skip, IH.
      * apply perm_swap.
Qed.

Lemma fold_insert_perm (l : list nat) :
  Permutation (fold_right (insert_index r) [] l) l.
Proof.
  induction l as [|i l IH]; simpl.
  - apply perm_nil.
  - apply perm_trans with (i :: fold_right (insert_index r) [] l).
    + apply insert_index_perm.
    + apply perm_skip, IH.
Qed.

Lemma insert_index_sorted (i : nat) (l : list nat) :
  StronglySorted ascending l -> StronglySorted ascending (insert_index r i l).
Proof.
  induction l as [|j l IH]; simpl; intros Hs.
  - constructor; [constructor | constructor].
  - inversion Hs as [|? ? Hl Hj]; subst.
    destruct (Qle_bool (score r i) (score r j)) eqn:E.
    + apply Qle_bool_iff in E.
      constructor; [exact Hs|].
      constructor; [exact E|].
      eapply Forall_impl; [|exact Hj].
      intros k Hk. unfold ascending in *. eapply Qle_trans; eassumption.
    + assert (Hlt : (score r j < score r i)%Q).
      { apply Qnot_le_lt. intro H. apply Qle_bool_iff in H. congruence. }
      constructor; [apply IH, Hl|].
      eapply Permutation_Forall.
      * apply Permutation_sym, insert_index_perm.
      * constructor; [apply Qlt_le_weak, Hlt | exact Hj].
Qed.

Lemma fold_insert_sorted (l : list nat) :
  StronglySorted ascending (fold_right (insert_index r) [] l).
Proof.
  induction l as [|i l IH]; simpl.
  - constructor.
  - apply insert_index_sorted, IH.
Qed.

End InsertionSort.

Definition insertion_ArgSort : ArgSort := {|
  argsort := insertion_argsort;
  argsort_perm := fun r => fold_insert_perm r (seq 0 (length r));
  argsort_sorted := fun r => fold_insert_sorted r (seq 0 (length r))
|}.

(** ** Facts about any [ArgSort] *)


Lemma sorted_before_last {A} (R : A -> A -> Prop) (l : list A) (p : A) :
  StronglySorted R (l ++ [p]) -> Forall (fun x => R x p) l.
Proof.
  induction l as [|x l IH]; simpl; intros Hs.
  - constructor.
  - inversion Hs as [|? ? Hl Hx]; subst.
    constructor.
    + rewrite Forall_forall in Hx. apply Hx, in_or_app. right. now left.
    + apply IH, Hl.
Qed.

Lemma count_true_cons (b : bool) (bs : list bool) :
  count_true (b :: bs) = (if b then 1 else 0) + count_true bs.
Proof. reflexivity. Qed.

Lemma count_true_nonneg (bs : list bool) : 0 <= count_true bs.
Proof.
  induction bs as [|b bs IH]; [cbn; lia|].
  rewrite count_true_cons. destruct b; lia.
Qed.

Lemma count_true_absent (t : Z) (l : list nat) :
  (forall i, In i l -> Z.of_nat i <> t) ->
  count_true (map (fun i => np_equal i t) l) = 0.
Proof.
  induction l as [|i l IH]; simpl; intros H; [reflexivity|].
  unfold np_equal at 1.
  destruct (Z.eqb_spec (Z.of_nat i) t) as [E|E].
  - exfalso. apply (H i); [now left | exact E].
  - rewrite IH; [reflexivity|]. intros k Hk. apply H. now right.
Qed.

Lemma count_true_once (m : nat) (l : list nat) :
  NoDup l -> In m l ->
  count_true (map (fun i => np_equal i (Z.of_nat m)) l) = 1.
Proof.
  induction l as [|i l IH]; simpl; intros Hnd Hin; [contradiction|].
  inversion Hnd as [|? ? Hni Hnd']; subst.
  unfold np_equal at 1.
  destruct (Z.eqb_spec (Z.of_nat i) (Z.of_nat m)) as [E|E].
  - apply Nat2Z.inj in E. subst i.
    rewrite count_true_absent; [reflexivity|].
    intros k Hk Ek. apply Nat2Z.inj in Ek. subst k. contradiction.
  - destruct Hin as [->|Hin]; [congruence|].
    rewrite IH; auto.
Qed.

Lemma In_firstn {A} (n : nat) (l : list A) (x : A) :
  In x (firstn n l) -> In x l.
Proof.
  intros H. rewrite <- (firstn_skipn n l). apply in_or_app. now left.
Qed.

Lemma broadcast_same_length {A B} (xs : list A) (ys : list B) :
  length xs = length ys -> broadcast xs ys = Ok (combine xs ys).
Proof.
  intros H. unfold broadcast. rewrite H, Nat.eqb_refl. reflexivity.
Qed.

Section ArgSortFacts.

Context {AS : ArgSort}.

Lemma argsort_length (r : row) : length (argsort r) = length r.
Proof.
  rewrite (Permutation_length (argsort_perm r)). apply length_seq.
Qed.

Lemma argsort_NoDup (r : row) : NoDup (argsort r).
Proof.
  apply (Permutation_NoDup (Permutation_sym (argsort_perm r))), seq_NoDup.
Qed.

Lemma argsort_In (r : row) (i : nat) : In i (argsort r) <-> (i < length r)%nat.
Proof.
  split; intros H.
  - apply (Permutation_in _ (argsort_perm r)) in H. apply in_seq in H. lia.
  - apply (Permutation_in _ (Permutation_sym (argsort_perm r))).
    apply in_seq. lia.
Qed.

(** The ranking of a row with at least one class has a first entry. *)
Lemma ranking_nonempty (r : row) :
  r <> [] -> exists i rest, rev (argsort r) = i :: rest.
Proof.
  intros Hr. destruct (rev (argsort r)) as [|i rest] eqn:E.
  - exfalso. apply Hr. apply length_zero_iff_nil.
    rewrite <- argsort_length, <- length_rev, E. reflexivity.
  - eauto.
Qed.

(** A strict maximum is ranked first, whatever the order among ties. *)
Lemma ranking_strict_max (r : row) (m : nat) :
  strict_max r m -> exists rest, rev (argsort r) = m :: rest.
Proof.
  intros [Hm Hmax].
  destruct (ranking_nonempty r) as (p & rest & E).
  { intros ->. simpl in Hm. lia. }
  exists rest. rewrite E. f_equal.
  assert (Ea : argsort r = rev rest ++ [p]).
  { rewrite <- (rev_involutive (argsort r)), E. reflexivity. }
  destruct (Nat.eq_dec p m) as [->|Hne]; [reflexivity|exfalso].
  assert (Hp : (p < length r)%nat).
  { apply argsort_In. rewrite Ea. apply in_or_app. right. now left. }
  assert (Hin : In m (rev rest ++ [p])).
  { rewrite <- Ea. apply argsort_In, Hm. }
  apply in_app_or in Hin. destruct Hin as [Hin|[->|[]]]; [|congruence].
  pose proof (argsort_sorted r) as Hs. rewrite Ea in Hs.
  apply sorted_before_last in Hs. rewrite Forall_forall in Hs.
  specialize (Hs m Hin). simpl in Hs.
  apply (Qlt_not_le _ _ (Hmax p Hp Hne)), Hs.
Qed.

Lemma ranking_NoDup (r : row) : NoDup (rev (argsort r)).
Proof.
  apply (Permutation_NoDup (Permutation_rev (argsort r))), argsort_NoDup.
Qed.


Lemma column0_ranking (output : matrix) :
  Forall (fun r => r <> []) output ->
  column0 (max_indices_of output) = Ok (map top_index output).
Proof.
  induction 1 as [|r output Hr _ IH]; [reflexivity|].
  destruct (ranking_nonempty r Hr) as (i & rest & E).
  unfold max_indices_of in *. cbn [map column0].
  unfold top_index at 1. rewrite E, IH. reflexivity.
Qed.

(** [accuracy_np] on an array of N rows with at least one class each and a
    label vector of length N. *)
Lemma accuracy_np_matching (output : matrix) (target : list Z) :
  Forall (fun r => r <> []) output ->
  length target = length output ->
  accuracy_np output target =
  Ok (fmul (of_int 100)
        (np_mean (map top1_hit (combine (map top_index output) target))),
      fmul (of_int 100)
        (np_mean (map top5_hits (combine (map top5_indices output) target)))).
Proof.
  intros Hne Hlen. unfold accuracy_np.
  rewrite column0_ranking by exact Hne.
  unfold max_indices_of. rewrite map_map.
  rewrite broadcast_same_length by (rewrite length_map; symmetry; exact Hlen).
  cbn [rbind].
  rewrite broadcast_same_length by (rewrite length_map; symmetry; exact Hlen).
  reflexivity.
Qed.

Lemma top1_hit_le_top5_hits (r : row) (t : Z) :
  r <> [] -> top1_hit (top_index r, t) <= top5_hits (top5_indices r, t).
Proof.
  intros Hr. destruct (ranking_nonempty r Hr) as (i & rest & E).
  unfold top_index, top5_indices, top1_hit, top5_hits. rewrite E.
  change (firstn 5 (i :: rest)) with (i :: firstn 4 rest).
  cbn [hd fst snd map]. rewrite count_true_cons.
  pose proof (count_true_nonneg (map (fun i0 => np_equal i0 t) (firstn 4 rest))).
  destruct (np_equal i t); lia.
Qed.

Lemma hits_le (output : matrix) :
  Forall (fun r => r <> []) output ->
  forall target,
    zsum (map top1_hit (combine (map top_index output) target)) <=
    zsum (map top5_hits (combine (map top5_indices output) target)).
Proof.
  induction 1 as [|r output Hr _ IH]; intros target; [cbn; lia|].
  destruct target as [|t target]; [cbn; lia|].
  cbn [map combine zsum fold_right]. fold (zsum).
  pose proof (top1_hit_le_top5_hits r t Hr). specialize (IH target).
  unfold zsum in *. lia.
Qed.


(** With at most five classes every label inside the range is a top-5 hit. *)
Lemma few_classes_top5 (r : row) (m : nat) :
  (length r <= 5)%nat -> (m < length r)%nat ->
  top5_hits (top5_indices r, Z.of_nat m) = 1.
Proof.
  intros H5 Hm. unfold top5_hits, top5_indices. cbn [fst snd].
  rewrite firstn_all2 by (rewrite length_rev, argsort_length; exact H5).
  apply count_true_once; [apply ranking_NoDup|].
  apply in_rev. rewrite rev_involutive. apply argsort_In, Hm.
Qed.

End ArgSortFacts.

(** ** [accuracy_np] *)

Lemma np_mean_nonempty (l : list Z) :
  l <> [] ->
  np_mean l = Real (Qred (inject_Z (zsum l) / inject_Z (Z.of_nat (length l)))).
Proof.
  destruct l; [congruence | reflexivity].
Qed.



Section AccuracyTheorems.

Context {AS : ArgSort}.




(** C4. For output [[0.9,0.1,0.0],[0.8,0.1,0.1]] and target [1,0],
    [accuracy_np] returns top1 = 50.0 (sample 0 wrong, sample 1 right) and
    top5 = 100.0, whichever way [np.argsort] orders the tied scores of the
    second row. *)
Theorem accuracy_np_half_right :
  accuracy_np [[9#10; 1#10; 0]; [8#10; 1#10; 1#10]]%Q [1; 0]
  = Ok (Real 50, Real 100).
Proof.
  set (r0 := [9#10; 1#10; 0]%Q). set (r1 := [8#10; 1#10; 1#10]%Q).
  assert (M0 : strict_max r0 0).
  { split; [simpl; lia|]. intros [|[|[|j]]] Hj Hne;
      [congruence | reflexivity | reflexivity | simpl in Hj; lia]. }
  assert (M1 : strict_max r1 0).
  { split; [simpl; lia|]. intros [|[|[|j]]] Hj Hne;
      [congruence | reflexivity | reflexivity | simpl in Hj; lia]. }
  assert (T0 : top_index r0 = 0%nat).
  { destruct (ranking_strict_max r0 0 M0) as (rest & E).
    unfold top_index. rewrite E. reflexivity. }
  assert (T1 : top_index r1 = 0%nat).
  { destruct (ranking_strict_max r1 0 M1) as (rest & E).
    unfold top_index. rewrite E. reflexivity. }
  assert (F0 : top5_hits (top5_indices r0, 1) = 1).
  { apply (few_classes_top5 r0 1); simpl; lia. }
  assert (F1 : top5_hits (top5_indices r1, 0) = 1).
  { apply (few_classes_top5 r1 0); simpl; lia. }
  rewrite accuracy_np_matching.
  - cbn [map combine]. rewrite T0, T1, F0, F1. reflexivity.
  - repeat constructor; discriminate.
  - reflexivity.
Qed.

(** C10. On an output array with at least one row and at least one class
    and a label vector of the same length, [accuracy_np] returns two numbers
    and top1 is at most top5. *)
Theorem accuracy_np_top1_le_top5 (output : matrix) (target : list Z) :
  output <> [] ->
  Forall (fun r => r <> []) output ->
  length target = length output ->
  exists t1 t5,
    accuracy_np output target = Ok (Real t1, Real t5) /\ (t1 <= t5)%Q.
Proof.
  intros Hne Hrows Hlen.
  rewrite accuracy_np_matching by assumption.
  set (l1 := map top1_hit (combine (map top_index output) target)).
  set (l5 := map top5_hits (combine (map top5_indices output) target)).
  assert (Hn : (0 < length output)%nat).
  { destruct output; [congruence | simpl; lia]. }
  assert (L1 : length l1 = length output).
  { unfold l1. rewrite length_map, length_combine, length_map, Hlen.
    apply Nat.min_id. }
  assert (L5 : length l5 = length output).
  { unfold l5. rewrite length_map, length_combine, length_map, Hlen.
    apply Nat.min_id. }
  rewrite (np_mean_nonempty l1), (np_mean_nonempty l5).
  - eexists. eexists. split; [reflexivity|].
    rewrite !Qred_correct. rewrite L1, L5.
    apply Qmult_le_l; [reflexivity|].
    apply Qmult_le_compat_r.
    + rewrite <- Zle_Qle. apply hits_le, Hrows.
    + apply Qinv_le_0_compat. change 0%Q with (inject_Z 0).
      rewrite <- Zle_Qle. lia.
  - intros E. rewrite E in L5. simpl in L5. lia.
  - intros E. rewrite E in L1. simpl in L1. lia.
Qed.

End AccuracyTheorems.

(** ** The batch loop *)

Lemma progress_indices_app (a b : list line) :
  progress_indices (a ++ b) = progress_indices a ++ progress_indices b.
Proof.
  induction a as [|[p| |] a IH]; simpl; rewrite ?IH; reflexivity.
Qed.


Section LoopFacts.

Context {AS : ArgSort} {RT : Runtime}.


(** What the progress line of a batch shows as throughput and as
    "ms/sample". *)
Lemma print_progress_rates args i total (b : Batch) bt t1 t5 w w' :
  print_progress args i total b bt t1 t5 w = (w', Ok tt) ->
  exists p,
    stdout w' = stdout w ++ [Progress p] /\
    p_index p = i /\ p_time_avg p = avg bt /\
    fdiv (of_nat (size0 (input b))) (avg bt) = Ok (p_rate_avg p) /\
    fdiv (fmul (of_int 100) (avg bt)) (of_nat (size0 (input b)))
      = Ok (p_ms_avg p).
Proof.
  unfold print_progress. cbn [cbind lift].
  destruct (fdiv (of_nat _) _) as [rate|e]; [|discriminate].
  cbn [cbind lift].
  destruct (fdiv (fmul _ _) _) as [ms|e]; [|discriminate].
  cbn [cbind lift print]. intros H.
  apply pair_equal_spec in H. destruct H as [<- _].
  eexists. cbn [stdout]. split; [reflexivity|].
  cbn [p_index p_time_avg p_rate_avg p_ms_avg]. auto.
Qed.

(** What one completed pass of the loop body has done. *)
Lemma loop_body_ok args sess total i (b : Batch) l w w' l' :
  loop_body args sess total i b l w = (w', Ok l') ->
  exists o prec,
    first_output (run sess (input b)) = Ok o /\
    accuracy_np o (target b) = Ok prec /\
    update (top1 l) (fst prec) (Z.of_nat (size0 (input b)))
      = Ok (top1 l') /\
    update (top5 l) (snd prec) (Z.of_nat (size0 (input b)))
      = Ok (top5 l') /\
    update (batch_time l) (fsub (Real (time_at (time_calls w))) (end_ l)) 1
      = Ok (batch_time l') /\
    total_predictions l' = total_predictions l + 1 /\
    elapsed_time l' = elapsed_time l
      + (perf_counter_ns_at (S (perf_calls w))
         - perf_counter_ns_at (perf_calls w)) /\
    perf_calls w' = S (S (perf_calls w)) /\
    print_freq args <> 0 /\
    progress_indices (stdout w') =
      progress_indices (stdout w) ++ (if prints_at args i then [i] else []).
Proof.
  intros H. destruct w as [pc tc out tr].
  unfold loop_body, print_progress in H.
  cbn [cbind lift ret perf_counter_ns time_time print session_run
       call_accuracy_np
       perf_calls time_calls stdout trace logged] in H.
  destruct (first_output _) as [o|e] eqn:E1; [|discriminate].
  destruct (accuracy_np o _) as [prec|e] eqn:E2; [|discriminate].
  destruct (update (top1 l) _ _) as [t1|e] eqn:E3; [|discriminate].
  destruct (update (top5 l) _ _) as [t5|e] eqn:E4; [|discriminate].
  destruct (update (batch_time l) _ _) as [bt|e] eqn:E5; [|discriminate].
  unfold py_mod in H. unfold prints_at.
  destruct (Z.eqb_spec (print_freq args) 0) as [E6|E6]; [discriminate|].
  cbn [cbind lift ret] in H.
  exists o, prec.
  destruct (Z.of_nat i mod print_freq args =? 0).
  - cbn [cbind lift ret print perf_calls time_calls stdout trace logged] in H.
    destruct (fdiv (of_nat _) _) as [rate|e]; [|discriminate].
    cbn [cbind lift ret print perf_calls time_calls stdout trace logged] in H.
    destruct (fdiv (fmul _ _) _) as [ms|e]; [|discriminate].
    cbn [cbind lift ret print perf_calls time_calls stdout trace logged] in H.
    inversion H; subst; clear H.
    cbn [top1 top5 batch_time total_predictions elapsed_time
         perf_calls time_calls stdout trace logged].
    rewrite progress_indices_app.
    repeat split; auto.
  - cbn [cbind lift ret print perf_calls time_calls stdout trace logged] in H.
    inversion H; subst; clear H.
    cbn [top1 top5 batch_time total_predictions elapsed_time
         perf_calls time_calls stdout trace logged].
    rewrite app_nil_r.
    repeat split; auto.
Qed.

(** A pass of the loop body that raises has printed nothing. *)
Lemma loop_body_raise args sess total i (b : Batch) l w w' e :
  loop_body args sess total i b l w = (w', Raise e) ->
  stdout w' = stdout w.
Proof.
  intros H. destruct w as [pc tc out tr].
  unfold loop_body, print_progress in H.
  cbn [cbind lift ret perf_counter_ns time_time print session_run
       call_accuracy_np
       perf_calls time_calls stdout trace logged] in H.
  repeat match type of H with
  | match ?r with Ok _ => _ | Raise _ => _ end = _ =>
      destruct r; [|inversion H; reflexivity]
  end.
  cbn [cbind lift ret] in H.
  destruct (_ =? 0).
  - cbn [cbind lift ret print perf_calls time_calls stdout trace logged] in H.
    destruct (fdiv (of_nat _) _); [|inversion H; reflexivity].
    cbn [cbind lift ret print perf_calls time_calls stdout trace logged] in H.
    destruct (fdiv (fmul _ _) _); [|inversion H; reflexivity].
    cbn [cbind lift ret print perf_calls time_calls stdout trace logged] in H.
    discriminate.
  - cbn [cbind lift ret print perf_calls time_calls stdout trace logged] in H.
    discriminate.
Qed.

(** The lines of a run, finished or not: one for each multiple of the print
    frequency among the passes that completed. *)
Lemma loop_progress args sess total (bs : list Batch) :
  forall i l w w' r,
    loop args sess total i bs l w = (w', r) ->
    exists k, (k <= length bs)%nat /\
              (forall l', r = Ok l' -> k = length bs) /\
              progress_indices (stdout w') =
                progress_indices (stdout w) ++ filter (prints_at args) (seq i k).
Proof.
  induction bs as [|b bs IH]; intros i l w w' r H.
  - cbn in H. inversion H; subst. exists 0%nat.
    cbn. rewrite app_nil_r. auto.
  - cbn [loop] in H. unfold cbind, next_batch in H.
    destruct (loop_body args sess total i b l (logged (Fetched i) w))
      as [w1 [l1|e]] eqn:Eb.
    + destruct (IH _ _ _ _ _ H) as (k & Hk & Hok & Hout).
      destruct (loop_body_ok _ _ _ _ _ _ _ _ _ Eb)
        as (_ & _ & _ & _ & _ & _ & _ & _ & _ & _ & _ & Hb).
      exists (S k). cbn [length seq filter]. split; [lia|]. split.
      * intros l' El. f_equal. eapply Hok, El.
      * rewrite Hout, Hb, <- app_assoc. f_equal.
        destruct (prints_at args i); reflexivity.
    + inversion H; subst. exists 0%nat.
      rewrite (loop_body_raise _ _ _ _ _ _ _ _ _ Eb).
      cbn. rewrite app_nil_r. repeat split; [lia|discriminate].
Qed.

(** The totals after a loop that ran to its end. *)
Lemma loop_totals args sess total (bs : list Batch) :
  forall i l w w' l',
    loop args sess total i bs l w = (w', Ok l') ->
    total_predictions l' = total_predictions l + Z.of_nat (length bs) /\
    elapsed_time l' = elapsed_time l
      + inference_durations perf_counter_ns_at (perf_calls w) (length bs).
Proof.
  induction bs as [|b bs IH]; intros i l w w' l' H.
  - cbn in H. inversion H; subst. cbn. lia.
  - cbn [loop] in H. unfold cbind, next_batch in H.
    destruct (loop_body args sess total i b l (logged (Fetched i) w))
      as [w1 [l1|e]] eqn:Eb;
      [|discriminate].
    destruct (IH _ _ _ _ _ H) as [Ht He].
    destruct (loop_body_ok _ _ _ _ _ _ _ _ _ Eb)
      as (_ & _ & _ & _ & _ & _ & _ & Hbt & Hbe & Hbp & _ & _).
    cbn [logged perf_calls] in Hbe, Hbp.
    rewrite Ht, He, Hbt, Hbe, Hbp. cbn [length inference_durations]. lia.
Qed.

Lemma loop_print_freq args sess total b (bs : list Batch) i l w w' l' :
  loop args sess total i (b :: bs) l w = (w', Ok l') -> print_freq args <> 0.
Proof.
  intros H. cbn [loop] in H. unfold cbind, next_batch in H.
  destruct (loop_body args sess total i b l (logged (Fetched i) w))
    as [w1 [l1|e]] eqn:Eb;
    [|discriminate].
  destruct (loop_body_ok _ _ _ _ _ _ _ _ _ Eb)
    as (_ & _ & _ & _ & _ & _ & _ & _ & _ & _ & Hpf & _).
  exact Hpf.
Qed.


(** [evaluate] either stops before the loop, with nothing printed, or is the
    loop on the session made from the selected artifact. *)
Lemma evaluate_cases args (loader : list Batch) w w' r :
  evaluate args loader w = (w', r) ->
  (stdout w' = stdout w /\ exists e, r = Raise e) \/
  exists g,
    loop args (create g) (length loader) 0 loader
      (initial_locals (Real (time_at (time_calls w))))
      (after_first_reading w) = (w', r).
Proof.
  unfold evaluate, select_graph, read_file, read_graph.
  cbn [cbind time_time]. fold (after_first_reading w).
  destruct (endswith (model_input args) ".dfg"%string) eqn:Ed.
  - destruct (files (model_input args)) as [content|] eqn:Ef;
      cbn [cbind ret lift];
      destruct (endswith (model_input args) ".onnx"%string) eqn:Eo;
      cbn [cbind ret lift]; intros H;
      try (right; eexists; exact H);
      left; inversion H; subst; (split; [reflexivity | eauto]).
  - cbn [cbind ret lift];
      destruct (endswith (model_input args) ".onnx"%string) eqn:Eo;
      cbn [cbind ret lift]; intros H;
      try (right; eexists; exact H);
      left; inversion H; subst; (split; [reflexivity | eauto]).
Qed.

Lemma evaluate_ok args (loader : list Batch) w w' l :
  evaluate args loader w = (w', Ok l) ->
  exists g,
    loop args (create g) (length loader) 0 loader
      (initial_locals (Real (time_at (time_calls w))))
      (after_first_reading w) = (w', Ok l).
Proof.
  intros H. destruct (evaluate_cases _ _ _ _ _ H) as [[_ [e E]]|H']; auto.
  discriminate.
Qed.

End LoopFacts.

(** ** The order of the calls *)

Lemma inference_durations_sum (perf : nat -> Z) (n first : nat) :
  inference_durations perf first n
  = zsum (map (fun j => perf (S (first + 2 * j)) - perf (first + 2 * j)%nat)
              (seq 0 n)).
Proof.
  revert first. induction n as [|n IH]; intros first; [reflexivity|].
  cbn [inference_durations seq map]. rewrite IH, <- seq_shift, map_map.
  cbn [zsum fold_right]. fold zsum. unfold zsum.
  replace (first + 2 * 0)%nat with first by lia.
  f_equal. f_equal. apply map_ext. intros j.
  replace (first + 2 * S j)%nat with (S (S first) + 2 * j)%nat by lia.
  reflexivity.
Qed.

(** Every pass among the [n] shows its five calls next to each other. *)
Lemma loop_events_pass (n : nat) :
  forall i pc tc j,
    (j < n)%nat ->
    exists pre post,
      loop_events i pc tc n
      = pre ++ [Fetched (i + j); PerfRead (pc + 2 * j); Inferred (i + j);
                PerfRead (S (pc + 2 * j)); Scored (i + j)] ++ post.
Proof.
  induction n as [|n IH]; intros i pc tc j Hj; [lia|].
  destruct j as [|j].
  - exists [], ([TimeRead tc; TimeRead (S tc)]
                ++ loop_events (S i) (S (S pc)) (S (S tc)) n).
    rewrite !Nat.add_0_r. reflexivity.
  - destruct (IH (S i) (S (S pc)) (S (S tc)) j ltac:(lia)) as (pre & post & E).
    exists ([Fetched i; PerfRead pc; Inferred i; PerfRead (S pc); Scored i;
             TimeRead tc; TimeRead (S tc)] ++ pre), post.
    cbn [loop_events]. rewrite E, <- app_assoc.
    replace (i + S j)%nat with (S i + j)%nat by lia.
    replace (pc + 2 * S j)%nat with (S (S pc) + 2 * j)%nat by lia.
    reflexivity.
Qed.

Section CallOrder.

Context {AS : ArgSort} {RT : Runtime}.

(** The calls of one completed pass of the loop body, in their order. *)
Lemma loop_body_trace args sess total i (b : Batch) l w w' l' :
  loop_body args sess total i b l w = (w', Ok l') ->
  trace w' = trace w ++ [PerfRead (perf_calls w); Inferred i;
                         PerfRead (S (perf_calls w)); Scored i;
                         TimeRead (time_calls w); TimeRead (S (time_calls w))] /\
  time_calls w' = S (S (time_calls w)).
Proof.
  intros H. destruct w as [pc tc out tr].
  unfold loop_body, print_progress in H.
  cbn [cbind lift ret perf_counter_ns time_time print session_run
       call_accuracy_np
       perf_calls time_calls stdout trace logged] in H.
  repeat match type of H with
  | match ?x with Ok _ => _ | Raise _ => _ end = _ =>
      destruct x; [|discriminate]
  end.
  cbn [cbind lift ret] in H.
  destruct (_ =? 0).
  - cbn [cbind lift ret print perf_calls time_calls stdout trace logged] in H.
    destruct (fdiv (of_nat _) _) as [rate|]; [|discriminate].
    cbn [cbind lift ret print perf_calls time_calls stdout trace logged] in H.
    destruct (fdiv (fmul _ _) _) as [ms|]; [|discriminate].
    cbn [cbind lift ret print perf_calls time_calls stdout trace logged] in H.
    apply pair_equal_spec in H. destruct H as [<- _].
    cbn [trace time_calls perf_calls]. rewrite <- !app_assoc. split; reflexivity.
  - cbn [cbind lift ret print perf_calls time_calls stdout trace logged] in H.
    apply pair_equal_spec in H. destruct H as [<- _].
    cbn [trace time_calls perf_calls]. rewrite <- !app_assoc. split; reflexivity.
Qed.

(** The calls of a loop that ran to its end. *)
Lemma loop_trace args sess total (bs : list Batch) :
  forall i l w w' l',
    loop args sess total i bs l w = (w', Ok l') ->
    trace w' = trace w
               ++ loop_events i (perf_calls w) (time_calls w) (length bs).
Proof.
  induction bs as [|b bs IH]; intros i l w w' l' H.
  - cbn [loop] in H. unfold cbind, next_batch, ret in H.
    apply pair_equal_spec in H. destruct H as [<- _]. reflexivity.
  - cbn [loop] in H. unfold cbind, next_batch in H.
    destruct (loop_body args sess total i b l (logged (Fetched i) w))
      as [w1 [l1|e]] eqn:Eb; [|discriminate].
    destruct (loop_body_trace _ _ _ _ _ _ _ _ _ Eb) as [Ht Htc].
    destruct (loop_body_ok _ _ _ _ _ _ _ _ _ Eb)
      as (_ & _ & _ & _ & _ & _ & _ & _ & _ & Hpc & _ & _).
    cbn [logged perf_calls time_calls trace] in Ht, Htc, Hpc.
    rewrite (IH _ _ _ _ _ H), Ht, Htc, Hpc.
    cbn [length loop_events]. rewrite <- !app_assoc. reflexivity.
Qed.

End CallOrder.

(** ** Running averages at 100 *)





Section RunTheorems.

Context {AS : ArgSort} {RT : Runtime}.






(** C6. After the loop, [total_predictions] is the number of batches the
    loader yielded, one per batch, and so differs from the number of
    samples whenever the two counts differ. *)
Theorem total_predictions_counts_batches args (loader : list Batch) w l :
  evaluate args loader world0 = (w, Ok l) ->
  total_predictions l = Z.of_nat (length loader) /\
  (samples loader <> Z.of_nat (length loader) ->
   total_predictions l <> samples loader).
Proof.
  intros H. destruct (evaluate_ok _ _ _ _ _ H) as (g & Hl).
  destruct (loop_totals _ _ _ _ _ _ _ _ _ Hl) as [Ht _].
  cbn [initial_locals total_predictions] in Ht.
  split; [lia|]. intros Hs. rewrite Ht. cbn. congruence.
Qed.

(** C7. A run that reaches its end had at least one batch, and the last
    line it prints is the average latency
    [elapsed_time / total_predictions / 1e6] in milliseconds, where
    [total_predictions] is the number of batches and [elapsed_time] is the
    sum over the batches of the duration that wraps the inference call
    alone: for batch i the readings 2i and 2i+1 of the nanosecond counter
    are taken right before and right after [session.run], with no other
    call between them; the loader is asked for the batch before the first
    of the two, and scoring and the wall-clock readings come after the
    second, so data loading is no part of the sum. *)
Theorem average_latency_of_inference_calls args (loader : list Batch) w :
  main args loader world0 = (w, Ok tt) ->
  loader <> [] /\
  exists w1 l out ms,
    evaluate args loader world0 = (w1, Ok l) /\
    total_predictions l = Z.of_nat (length loader) /\
    elapsed_time l = inference_durations perf_counter_ns_at 0 (length loader) /\
    stdout w = out ++ [Latency (Real ms)] /\
    (ms == inject_Z (elapsed_time l) / inject_Z (total_predictions l)
           / 1000000)%Q /\
    elapsed_time l
    = zsum (map (fun i => perf_counter_ns_at (S (2 * i))
                          - perf_counter_ns_at (2 * i)%nat)
                (seq 0 (length loader))) /\
    trace w = TimeRead 0 :: loop_events 0 0 1 (length loader) /\
    (forall i, (i < length loader)%nat ->
       exists pre post,
         trace w = pre ++ [Fetched i; PerfRead (2 * i); Inferred i;
                           PerfRead (S (2 * i)); Scored i] ++ post).
Proof.
  intros H. unfold main, cbind in H.
  destruct (evaluate args loader world0) as [w1 [l|e]] eqn:Ev; [|discriminate].
  destruct (evaluate_ok _ _ _ _ _ Ev) as (g & Hl).
  destruct (loop_totals _ _ _ _ _ _ _ _ _ Hl) as [Ht He].
  pose proof (loop_trace _ _ _ _ _ _ _ _ _ Hl) as Htr.
  cbn [initial_locals total_predictions elapsed_time after_first_reading
       perf_calls time_calls trace world0 app] in Ht, He, Htr.
  unfold report, int_truediv in H.
  cbn [cbind print lift of_int fdiv] in H.
  destruct (Qeq_bool (inject_Z (total_predictions l)) 0) eqn:Ez;
    [discriminate|].
  cbn [cbind print lift of_int fdiv] in H.
  change (Qeq_bool (inject_Z 1000000) 0) with false in H.
  cbn [cbind print lift of_int fdiv perf_calls time_calls stdout trace logged]
    in H.
  apply pair_equal_spec in H. destruct H as [Hw _]. subst w.
  cbn [stdout trace].
  split.
  - intros ->. cbn in Ht. rewrite Ht in Ez. discriminate.
  - eexists. exists l. eexists. eexists.
    split; [reflexivity|]. split; [lia|]. split; [lia|].
    split; [reflexivity|].
    split; [rewrite !Qred_correct; reflexivity|].
    split; [|split].
    + rewrite He, Z.add_0_l, inference_durations_sum. reflexivity.
    + exact Htr.
    + intros i Hi.
      destruct (loop_events_pass (length loader) 0 0 1 i Hi) as (pre & post & E).
      exists (TimeRead 0 :: pre), post. rewrite Htr, E. reflexivity.
Qed.

(** C8. The progress lines of a run are those of the passes of the loop
    that completed and whose zero-based batch index is a multiple of
    [print_freq], in order and once each.  When the loop reaches its end
    these are all the batches: a line is printed for batch i exactly when
    [print_freq] divides i, a run of at least one batch starts with the
    line of batch 0, and [print_freq = 1] gives one line per batch. *)
Theorem progress_lines_at_multiples args (loader : list Batch) w r :
  evaluate args loader world0 = (w, r) ->
  exists passes,
    (passes <= length loader)%nat /\
    progress_indices (stdout w) = filter (prints_at args) (seq 0 passes) /\
    forall l, r = Ok l ->
      passes = length loader /\
      (forall i, In i (progress_indices (stdout w)) <->
                 (i < length loader)%nat /\ (print_freq args | Z.of_nat i)) /\
      (loader <> [] ->
       exists rest, progress_indices (stdout w) = 0%nat :: rest) /\
      (print_freq args = 1 ->
       progress_indices (stdout w) = seq 0 (length loader)).
Proof.
  intros H. destruct (evaluate_cases _ _ _ _ _ H) as [[Hout [e ->]]|[g Hl]].
  { exists 0%nat. rewrite Hout. cbn. split; [lia|]. split; [reflexivity|].
    discriminate. }
  destruct (loop_progress _ _ _ _ _ _ _ _ _ Hl) as (k & Hle & Hk & Hout).
  cbn in Hout. exists k. split; [exact Hle|]. split; [exact Hout|].
  intros l ->. rewrite (Hk l eq_refl) in Hout.
  assert (Hpf : loader <> [] -> print_freq args <> 0).
  { destruct loader as [|b bs]; [congruence|]. intros _.
    eapply loop_print_freq, Hl. }
  split; [exact (Hk l eq_refl)|]. split; [|split].
  - intros i. rewrite Hout, filter_In, in_seq. unfold prints_at.
    split.
    + intros [Hi Hm]. split; [lia|].
      apply Z.eqb_eq in Hm. apply Z.mod_divide; [|exact Hm].
      apply Hpf. intros ->. simpl in Hi. lia.
    + intros [Hi Hd]. split; [lia|].
      apply Z.eqb_eq. apply Z.mod_divide; [|exact Hd].
      apply Hpf. intros ->. simpl in Hi. lia.
  - intros Hne. rewrite Hout. destruct loader as [|b bs]; [congruence|].
    cbn [length seq filter]. unfold prints_at at 1.
    rewrite Zmod_0_l. cbn. eauto.
  - intros E1. rewrite Hout. unfold prints_at. rewrite E1.
    apply forallb_filter_id. apply forallb_forall. intros i _.
    rewrite Z.mod_1_r. reflexivity.
Qed.

End RunTheorems.

(** ** The model artifact and the two unguarded cases *)

Lemma endswith_dfg_not_onnx (s : string) :
  endswith s ".dfg"%string = true -> endswith s ".onnx"%string = false.
Proof.
  unfold endswith.
  destruct (rev (String.list_ascii_of_string s)) as [|c l]; [discriminate|].
  cbn [String.list_ascii_of_string rev app is_prefix].
  destruct (Ascii.eqb_spec "g"%char c) as [<-|_]; [|discriminate].
  reflexivity.
Qed.


Section ArtifactTheorems.

Context {AS : ArgSort} {RT : Runtime}.

(** With neither suffix, [graph] is read unbound at line 134. *)
Lemma unsupported_suffix_unbound args (loader : list Batch) :
  endswith (model_input args) ".dfg"%string = false ->
  endswith (model_input args) ".onnx"%string = false ->
  main args loader world0
  = (after_first_reading world0, Raise (UnboundLocalError "graph"%string)).
Proof.
  intros Ed Eo. unfold main, evaluate, select_graph, read_graph.
  cbn [cbind time_time]. rewrite Ed, Eo. reflexivity.
Qed.

(** C3, the code at the failing input.  With [--model-input model.pt], and
    with the default [--model-input] (the empty string), the run ends in
    the interpreter's [UnboundLocalError] on [graph], with nothing printed;
    it is not an error that the script raises. *)
Theorem unsupported_model_format_unbound_graph :
  forall (loader : list Batch) (b p : Z),
    main {| model_input := "model.pt"%string; batch_size := b; print_freq := p |}
         loader world0
    = (after_first_reading world0, Raise (UnboundLocalError "graph"%string)) /\
    main {| model_input := String.EmptyString; batch_size := b; print_freq := p |}
         loader world0
    = (after_first_reading world0, Raise (UnboundLocalError "graph"%string)) /\
    language_level_fault (UnboundLocalError "graph"%string) = true /\
    ~ explicit_error (snd (main {| model_input := "model.pt"%string; batch_size := b;
                                   print_freq := p |} loader world0)).
Proof.
  intros loader b p.
  split; [apply unsupported_suffix_unbound; reflexivity|].
  split; [apply unsupported_suffix_unbound; reflexivity|].
  split; [reflexivity|].
  rewrite unsupported_suffix_unbound by reflexivity.
  intros [msg H]. discriminate.
Qed.

(** What the two [if] statements leave in [graph]. *)
Lemma select_graph_dfg args content w :
  endswith (model_input args) ".dfg"%string = true ->
  files (model_input args) = Some content ->
  select_graph args w = (w, Ok (Some (ModelBytes content))).
Proof.
  intros Ed Ef. unfold select_graph, read_file, cbind.
  rewrite Ed, Ef, (endswith_dfg_not_onnx _ Ed). reflexivity.
Qed.

Lemma select_graph_onnx args w :
  endswith (model_input args) ".onnx"%string = true ->
  select_graph args w = (w, Ok (Some (ModelPath (model_input args)))).
Proof.
  intros Eo. unfold select_graph, read_file, cbind.
  destruct (endswith (model_input args) ".dfg"%string) eqn:Ed.
  - rewrite (endswith_dfg_not_onnx _ Ed) in Eo. discriminate.
  - cbn [ret]. rewrite Eo. reflexivity.
Qed.

(** C9. A [--model-input] path that ends in ".dfg" and names a file has the
    whole content of the file handed to the session constructor as bytes;
    a path that ends in ".onnx" is handed over as the path string.  The
    loop then runs on the session so made. *)
Theorem model_artifact_by_suffix args (loader : list Batch) :
  (forall content,
      endswith (model_input args) ".dfg"%string = true ->
      files (model_input args) = Some content ->
      evaluate args loader world0
      = loop args (create (ModelBytes content)) (length loader) 0 loader
          (initial_locals (Real (time_at 0))) (after_first_reading world0)) /\
  (endswith (model_input args) ".onnx"%string = true ->
   evaluate args loader world0
   = loop args (create (ModelPath (model_input args))) (length loader) 0 loader
       (initial_locals (Real (time_at 0))) (after_first_reading world0)).
Proof.
  split.
  - intros content Ed Ef. unfold evaluate.
    unfold cbind at 1. cbn [time_time]. unfold cbind at 1.
    rewrite (select_graph_dfg args content _ Ed Ef). reflexivity.
  - intros Eo. unfold evaluate.
    unfold cbind at 1. cbn [time_time]. unfold cbind at 1.
    rewrite (select_graph_onnx args _ Eo). reflexivity.
Qed.

(** C2, amended. When the model artifact was selected and the loader yields
    no batch, the run prints the summary line of the untouched meters and
    then ends at the final latency computation in Python's own
    [ZeroDivisionError]. *)
Theorem empty_loader_zero_division args :
  endswith (model_input args) ".onnx"%string = true \/
  (endswith (model_input args) ".dfg"%string = true /\
   files (model_input args) <> None) ->
  main args [] world0
  = ({| perf_calls := 0; time_calls := 1;
        stdout := [Summary (Real 0) (Real 100) (Real 0) (Real 100)];
        trace := [TimeRead 0; Fetched 0] |},
     Raise ZeroDivisionError) /\
  language_level_fault ZeroDivisionError = true.
Proof.
  intros H. split; [|reflexivity].
  unfold main, evaluate.
  unfold cbind at 1 2. cbn [time_time]. unfold cbind at 1.
  destruct H as [Eo|[Ed Ef]].
  - rewrite (select_graph_onnx args _ Eo). reflexivity.
  - destruct (files (model_input args)) as [content|] eqn:E; [|congruence].
    rewrite (select_graph_dfg args content _ Ed E). reflexivity.
Qed.

End ArtifactTheorems.

(** * Concrete runs *)

(** A runtime for the examples: a tensor is its number of samples, every
    sample is scored 0.1 for class 0 and 0.9 for class 1, the wall clock
    advances one second per reading, the nanosecond counter reads 0, 1000,
    5000, 7000, 20000, 23000, and the only file is [model.dfg]. *)
Definition demo_runtime : Runtime := {|
  tensor := nat;
  size0 := fun n => n;
  session := artifact;
  create := fun g => g;
  run := fun _ n => [repeat [1#10; 9#10]%Q n];
  perf_counter_ns_at := fun k => nth k [0; 1000; 5000; 7000; 20000; 23000] 0;
  time_at := fun k => inject_Z (Z.of_nat k);
  files := fun p => if String.eqb p "model.dfg"%string
                    then Some [Byte.x4f; Byte.x4b] else None
|}.

Definition demo_batch (n : nat) : Batch (RT := demo_runtime) :=
  @Build_Batch demo_runtime n (repeat 1 n).

Definition demo_loader : list (Batch (RT := demo_runtime)) :=
  [demo_batch 2; demo_batch 2; demo_batch 1].

Definition demo_args : Args :=
  {| model_input := "model.onnx"%string; batch_size := 2; print_freq := 2 |}.

Definition demo_dfg_args : Args :=
  {| model_input := "model.dfg"%string; batch_size := 2; print_freq := 2 |}.

Definition demo_evaluate : World * result Locals :=
  evaluate (AS := insertion_ArgSort) (RT := demo_runtime)
    demo_args demo_loader world0.

Definition demo_world : World := Eval vm_compute in fst demo_evaluate.

Definition demo_locals : Locals :=
  Eval vm_compute in
    match snd demo_evaluate with
    | Ok l => l
    | Raise _ => initial_locals NaN
    end.

Definition demo_main_world : World :=
  Eval vm_compute in
    fst (main (AS := insertion_ArgSort) (RT := demo_runtime)
           demo_args demo_loader world0).


(** C1, the code at the failing input.  One batch of one sample that takes
    one second on the wall clock: the average batch time is 1 s and the
    throughput 1 sample/s, and the value printed as "ms/sample" is 100,
    where the average batch time over the batch size in milliseconds is
    1000. *)
Theorem progress_line_ms_avg_is_hundredfold :
  exists p rest,
    stdout (fst (main (AS := insertion_ArgSort) (RT := demo_runtime)
                   demo_args [demo_batch 1] world0))
    = Progress p :: rest /\
    p_index p = 0%nat /\
    p_time_avg p = Real 1 /\
    p_rate_avg p = Real 1 /\
    p_ms_avg p = Real 100 /\
    fdiv (fmul (of_int 1000) (p_time_avg p)) (of_nat 1) = Ok (Real 1000).
Proof.
  eexists. eexists. split; [vm_compute; reflexivity|].
  repeat split; vm_compute; reflexivity.
Qed.

(** C2, counterexample.  On an empty loader with
    [--model-input model.onnx] the run ends in [ZeroDivisionError], the
    interpreter's own fault and not an error that the script reports. *)
Lemma empty_loader_error_not_explicit :
  snd (main (AS := insertion_ArgSort) (RT := demo_runtime)
         demo_args [] world0) = Raise ZeroDivisionError /\
  language_level_fault ZeroDivisionError = true /\
  ~ explicit_error
      (snd (main (AS := insertion_ArgSort) (RT := demo_runtime)
              demo_args [] world0)).
Proof.
  split; [vm_compute; reflexivity|]. split; [reflexivity|].
  intros [msg H]. vm_compute in H. discriminate.
Qed.

(** The amended C2 at [--model-input model.onnx]. *)
Lemma empty_loader_zero_division_witness :
  (endswith (model_input demo_args) ".onnx"%string = true \/
   (endswith (model_input demo_args) ".dfg"%string = true /\
    files (Runtime := demo_runtime) (model_input demo_args) <> None)) /\
  main (AS := insertion_ArgSort) (RT := demo_runtime) demo_args [] world0
  = ({| perf_calls := 0; time_calls := 1;
        stdout := [Summary (Real 0) (Real 100) (Real 0) (Real 100)];
        trace := [TimeRead 0; Fetched 0] |},
     Raise ZeroDivisionError) /\
  language_level_fault ZeroDivisionError = true.
Proof.
  split; [left; reflexivity|].
  apply (empty_loader_zero_division (AS := insertion_ArgSort)
           (RT := demo_runtime) demo_args).
  left. reflexivity.
Defined.



(** C6 on the run of three batches, which hold five samples. *)
Lemma total_predictions_counts_batches_witness :
  evaluate (AS := insertion_ArgSort) (RT := demo_runtime)
    demo_args demo_loader world0 = (demo_world, Ok demo_locals) /\
  total_predictions demo_locals = 3 /\
  (samples demo_loader <> 3 -> total_predictions demo_locals <> samples demo_loader).
Proof.
  assert (E : evaluate (AS := insertion_ArgSort) (RT := demo_runtime)
                demo_args demo_loader world0 = (demo_world, Ok demo_locals))
    by (vm_compute; reflexivity).
  split; [exact E|].
  exact (total_predictions_counts_batches (AS := insertion_ArgSort)
           (RT := demo_runtime) demo_args demo_loader demo_world demo_locals E).
Defined.

(** C7 on the run of three batches: 1000 + 2000 + 3000 ns over 3 batches. *)
Lemma average_latency_of_inference_calls_witness :
  main (AS := insertion_ArgSort) (RT := demo_runtime)
    demo_args demo_loader world0 = (demo_main_world, Ok tt) /\
  demo_loader <> [] /\
  exists w1 l out ms,
    evaluate (AS := insertion_ArgSort) (RT := demo_runtime)
      demo_args demo_loader world0 = (w1, Ok l) /\
    total_predictions l = 3 /\
    elapsed_time l = 6000 /\
    stdout demo_main_world = out ++ [Latency (Real ms)] /\
    (ms == inject_Z (elapsed_time l) / inject_Z (total_predictions l)
           / 1000000)%Q /\
    elapsed_time l = (1000 - 0) + ((7000 - 5000) + ((23000 - 20000) + 0)) /\
    trace demo_main_world = TimeRead 0 :: loop_events 0 0 1 3 /\
    (forall i, (i < 3)%nat ->
       exists pre post,
         trace demo_main_world
         = pre ++ [Fetched i; PerfRead (2 * i); Inferred i;
                   PerfRead (S (2 * i)); Scored i] ++ post).
Proof.
  assert (E : main (AS := insertion_ArgSort) (RT := demo_runtime)
                demo_args demo_loader world0 = (demo_main_world, Ok tt))
    by (vm_compute; reflexivity).
  split; [exact E|].
  exact (average_latency_of_inference_calls (AS := insertion_ArgSort)
           (RT := demo_runtime) demo_args demo_loader demo_main_world E).
Defined.

(** C8 on the run of three batches with [--print-freq 2]. *)
Lemma progress_lines_at_multiples_witness :
  evaluate (AS := insertion_ArgSort) (RT := demo_runtime)
    demo_args demo_loader world0 = (demo_world, Ok demo_locals) /\
  exists passes,
    (passes <= 3)%nat /\
    progress_indices (stdout demo_world)
      = filter (prints_at demo_args) (seq 0 passes) /\
    forall l, Ok demo_locals = Ok l ->
      passes = 3%nat /\
      (forall i, In i (progress_indices (stdout demo_world)) <->
                 (i < 3)%nat /\ (2 | Z.of_nat i)) /\
      (demo_loader <> [] ->
       exists rest, progress_indices (stdout demo_world) = 0%nat :: rest) /\
      (print_freq demo_args = 1 ->
       progress_indices (stdout demo_world) = seq 0 3).
Proof.
  assert (E : evaluate (AS := insertion_ArgSort) (RT := demo_runtime)
                demo_args demo_loader world0 = (demo_world, Ok demo_locals))
    by (vm_compute; reflexivity).
  split; [exact E|].
  exact (progress_lines_at_multiples (AS := insertion_ArgSort)
           (RT := demo_runtime) demo_args demo_loader
           demo_world (Ok demo_locals) E).
Defined.

(** C9 on [model.dfg], a file of two bytes, and on [model.onnx]. *)
Lemma model_artifact_by_suffix_witness :
  evaluate (AS := insertion_ArgSort) (RT := demo_runtime)
    demo_dfg_args demo_loader world0
  = loop (AS := insertion_ArgSort) (RT := demo_runtime) demo_dfg_args
      (ModelBytes [Byte.x4f; Byte.x4b]) 3 0 demo_loader
      (initial_locals (Real 0)) (after_first_reading world0) /\
  evaluate (AS := insertion_ArgSort) (RT := demo_runtime)
    demo_args demo_loader world0
  = loop (AS := insertion_ArgSort) (RT := demo_runtime) demo_args
      (ModelPath "model.onnx"%string) 3 0 demo_loader
      (initial_locals (Real 0)) (after_first_reading world0).
Proof.
  split.
  - apply (proj1 (model_artifact_by_suffix (AS := insertion_ArgSort)
                    (RT := demo_runtime) demo_dfg_args demo_loader));
      reflexivity.
  - apply (proj2 (model_artifact_by_suffix (AS := insertion_ArgSort)
                    (RT := demo_runtime) demo_args demo_loader));
      reflexivity.
Defined.

(** C10 on the batch of C4. *)
Lemma accuracy_np_top1_le_top5_witness :
  exists t1 t5,
    accuracy_np (AS := insertion_ArgSort)
      [[9#10; 1#10; 0]; [8#10; 1#10; 1#10]]%Q [1; 0]
    = Ok (Real t1, Real t5) /\ (t1 <= t5)%Q.
Proof.
  apply (accuracy_np_top1_le_top5 (AS := insertion_ArgSort)).
  - discriminate.
  - repeat constructor; discriminate.
  - reflexivity.
Defined.

(** * Further properties of [accuracy_np] *)

(** [k] classes of the row score strictly above class [m]. *)
Definition beaten_by (k : nat) (r : row) (m : nat) : Prop :=
  exists J, NoDup J /\ length J = k /\
            forall j, In j J -> (j < length r)%nat /\ (score r m < score r j)%Q.


(** The label is no class of the row, or [k] classes score strictly above
    it. *)
Definition label_beaten_by (k : nat) (r : row) (t : Z) : Prop :=
  forall m, Z.of_nat m = t -> (m < length r)%nat -> beaten_by k r m.


(** Two leading axes that numpy broadcasts against each other. *)
Definition shapes_broadcast (n m : nat) : bool :=
  Nat.eqb n m || Nat.eqb n 1 || Nat.eqb m 1.

Lemma sorted_around {A} (R : A -> A -> Prop) (a b : list A) (x : A) :
  StronglySorted R (a ++ x :: b) ->
  Forall (fun y => R y x) a /\ Forall (R x) b.
Proof.
  induction a as [|y a IH]; simpl; intros Hs.
  - inversion Hs; subst. split; [constructor | assumption].
  - inversion Hs as [|? ? Hl Hy]; subst.
    destruct (IH Hl) as [Ha Hb]. split; [|exact Hb].
    constructor; [|exact Ha].
    rewrite Forall_forall in Hy. apply Hy, in_elt.
Qed.

Lemma In_firstn_split {A} (k : nat) (l : list A) (x : A) :
  In x (firstn k l) ->
  exists pre post, l = pre ++ x :: post /\ (length pre < k)%nat.
Proof.
  intros H. destruct (in_split _ _ H) as (pre & post & E).
  exists pre, (post ++ skipn k l). split.
  - rewrite <- (firstn_skipn k l) at 1. rewrite E, <- app_assoc. reflexivity.
  - pose proof (firstn_le_length k l) as Hk. rewrite E, length_app in Hk.
    simpl in Hk. lia.
Qed.


Lemma NoDup_firstn {A} (k : nat) (l : list A) : NoDup l -> NoDup (firstn k l).
Proof.
  intros H. rewrite <- (firstn_skipn k l) in H.
  exact (NoDup_app_remove_r _ _ H).
Qed.

Lemma count_true_le_1 (t : Z) (l : list nat) :
  NoDup l -> 0 <= count_true (map (fun i => np_equal i t) l) <= 1.
Proof.
  intros Hnd. split; [apply count_true_nonneg|].
  destruct (Z_lt_le_dec t 0) as [Hneg|Hpos].
  - rewrite count_true_absent; [lia|]. intros i _. lia.
  - destruct (in_dec Nat.eq_dec (Z.to_nat t) l) as [Hin|Hout].
    + rewrite <- (Z2Nat.id t Hpos). rewrite count_true_once; auto. lia.
    + rewrite count_true_absent; [lia|].
      intros i Hi E. apply Hout. subst t. rewrite Nat2Z.id. exact Hi.
Qed.

Lemma percent_of_none (n : nat) :
  fmul (of_int 100) (Real (Qred (inject_Z 0 / inject_Z (Z.of_nat n)))) = Real 0.
Proof.
  assert (E : Qred (inject_Z 0 / inject_Z (Z.of_nat n)) = 0%Q).
  { transitivity (Qred 0); [|reflexivity]. apply Qred_complete.
    unfold Qdiv. apply Qmult_0_l. }
  rewrite E. reflexivity.
Qed.

Section Ranking.

Context {AS : ArgSort}.

(** A class that [k] classes beat is not among the first [k] of the
    ranking, however ties are ordered. *)
Lemma beaten_not_ranked (k : nat) (r : row) (m : nat) :
  beaten_by k r m -> ~ In m (firstn k (rev (argsort r))).
Proof.
  intros (J & Hnd & Hlen & HJ) Hin.
  destruct (In_firstn_split _ _ _ Hin) as (pre & post & E & Hpre).
  assert (Ea : argsort r = rev post ++ m :: rev pre).
  { rewrite <- (rev_involutive (argsort r)), E, rev_app_distr. simpl.
    rewrite <- app_assoc. reflexivity. }
  pose proof (argsort_sorted r) as Hs. rewrite Ea in Hs.
  destruct (sorted_around _ _ _ _ Hs) as [Hbefore _].
  rewrite Forall_forall in Hbefore.
  assert (Hincl : incl J pre).
  { intros j Hj. destruct (HJ j Hj) as [Hr Hlt].
    apply argsort_In in Hr. rewrite Ea in Hr.
    apply in_app_or in Hr. destruct Hr as [Hr|[->|Hr]].
    - exfalso. apply (Qlt_not_le _ _ Hlt), Hbefore, Hr.
    - exfalso. exact (Qlt_irrefl _ Hlt).
    - apply in_rev. exact Hr. }
  pose proof (NoDup_incl_length Hnd Hincl). lia.
Qed.




Lemma top5_hits_unranked (r : row) (t : Z) :
  (forall m, Z.of_nat m = t -> ~ In m (firstn 5 (rev (argsort r)))) ->
  top5_hits (top5_indices r, t) = 0.
Proof.
  intros H. unfold top5_hits, top5_indices. cbn [fst snd].
  apply count_true_absent. intros i Hi E. exact (H i E Hi).
Qed.

Lemma top5_hits_bounds (r : row) (t : Z) :
  0 <= top5_hits (top5_indices r, t) <= 1.
Proof.
  unfold top5_hits, top5_indices. cbn [fst snd].
  apply count_true_le_1, NoDup_firstn, ranking_NoDup.
Qed.

Lemma top1_hit_unranked (r : row) (t : Z) :
  r <> [] ->
  (forall m, Z.of_nat m = t -> ~ In m (firstn 1 (rev (argsort r)))) ->
  top1_hit (top_index r, t) = 0.
Proof.
  intros Hr H. destruct (ranking_nonempty r Hr) as (i & rest & E).
  unfold top1_hit, top_index. rewrite E. cbn [hd fst snd].
  unfold np_equal. destruct (Z.eqb_spec (Z.of_nat i) t) as [Et|_]; [|reflexivity].
  exfalso. apply (H i Et). rewrite E. simpl. now left.
Qed.

Lemma label_beaten_in_range (k : nat) (r : row) (t : Z) :
  label_beaten_by k r t ->
  forall m, Z.of_nat m = t -> ~ In m (firstn k (rev (argsort r))).
Proof.
  intros H m Em Hin.
  assert (Hm : (m < length r)%nat).
  { apply argsort_In. apply in_rev. eapply In_firstn. exact Hin. }
  exact (beaten_not_ranked k r m (H m Em Hm) Hin).
Qed.

(** The hit counts of a batch lie between 0 and the number of samples. *)
Lemma hits_bounds (output : matrix) :
  Forall (fun r => r <> []) output ->
  forall target,
    0 <= zsum (map top1_hit (combine (map top_index output) target)) /\
    zsum (map top5_hits (combine (map top5_indices output) target))
      <= Z.of_nat (length (combine output target)).
Proof.
  induction 1 as [|r output Hr _ IH]; intros target; [cbn; lia|].
  destruct target as [|t target]; [cbn; lia|].
  cbn [map combine zsum fold_right length]. fold zsum.
  destruct (IH target) as [I1 I5]. unfold zsum in *.
  pose proof (top5_hits_bounds r t).
  assert (0 <= top1_hit (top_index r, t)).
  { unfold top1_hit. destruct (np_equal _ _); lia. }
  lia.
Qed.

End Ranking.

Lemma beaten_by_fewer (k k' : nat) (r : row) (m : nat) :
  (k' <= k)%nat -> beaten_by k r m -> beaten_by k' r m.
Proof.
  intros Hk (J & Hnd & Hlen & HJ). exists (firstn k' J).
  split; [apply NoDup_firstn, Hnd|]. split.
  - rewrite length_firstn. lia.
  - intros j Hj. apply HJ. eapply In_firstn. exact Hj.
Qed.

Lemma combine_map_l {A B C} (f : A -> C) (l : list A) (l' : list B) :
  combine (map f l) l' = map (fun p => (f (fst p), snd p)) (combine l l').
Proof.
  revert l'. induction l as [|a l IH]; intros [|b l']; simpl; try reflexivity.
  rewrite IH. reflexivity.
Qed.

Lemma map_fst_combine {A B} (l : list A) (l' : list B) :
  length l = length l' -> map fst (combine l l') = l.
Proof.
  revert l'. induction l as [|a l IH]; intros [|b l'] H; simpl in *;
    try reflexivity; try discriminate.
  rewrite IH; [reflexivity | congruence].
Qed.

Lemma zsum_perm (l l' : list Z) : Permutation l l' -> zsum l = zsum l'.
Proof.
  induction 1; cbn in *; unfold zsum in *; lia.
Qed.

Lemma np_mean_perm (l l' : list Z) : Permutation l l' -> np_mean l = np_mean l'.
Proof.
  intros H. destruct l as [|x l].
  - apply Permutation_nil in H. subst. reflexivity.
  - destruct l' as [|x' l'].
    + apply Permutation_sym, Permutation_nil in H. discriminate.
    + unfold np_mean.
      rewrite (zsum_perm _ _ H), (Permutation_length H). reflexivity.
Qed.

Lemma broadcast_shapes {A B} (xs : list A) (ys : list B) :
  (shapes_broadcast (length xs) (length ys) = false ->
   broadcast xs ys = Raise ValueError) /\
  (shapes_broadcast (length xs) (length ys) = true ->
   exists l, broadcast xs ys = Ok l).
Proof.
  unfold shapes_broadcast, broadcast.
  destruct (Nat.eqb (length xs) (length ys)); [split; [discriminate|eauto]|].
  destruct xs as [|x [|x' xs]], ys as [|y [|y' ys]]; cbn;
    split; intros; try discriminate; eauto.
Qed.

Section AccuracyFurther.

Context {AS : ArgSort}.

Lemma column0_empty_row (output : matrix) :
  Exists (fun r => r = []) output ->
  column0 (max_indices_of output) = Raise IndexError.
Proof.
  unfold max_indices_of.
  induction output as [|r output IH]; intros H; [inversion H|].
  cbn [map column0].
  destruct (rev (argsort r)) as [|i rest] eqn:E; [reflexivity|].
  inversion H as [? ? Hr|? ? Ht]; subst.
  - pose proof (argsort_length []) as Hl. cbn in Hl.
    apply length_zero_iff_nil in Hl. rewrite Hl in E. discriminate.
  - rewrite (IH Ht). reflexivity.
Qed.

(** X1. The two accuracies are percentages of the batch. *)
Theorem accuracy_np_percentages (output : matrix) (target : list Z) :
  output <> [] ->
  Forall (fun r => r <> []) output ->
  length target = length output ->
  exists (h1 h5 : Z) (t1 t5 : Q),
    accuracy_np output target = Ok (Real t1, Real t5) /\
    0 <= h1 <= h5 /\ h5 <= Z.of_nat (length output) /\
    (t1 == 100 * (inject_Z h1 / inject_Z (Z.of_nat (length output))))%Q /\
    (t5 == 100 * (inject_Z h5 / inject_Z (Z.of_nat (length output))))%Q /\
    (0 <= t1)%Q /\ (t5 <= 100)%Q.
Proof.
  intros Hne Hrows Hlen.
  rewrite accuracy_np_matching by assumption.
  set (l1 := map top1_hit (combine (map top_index output) target)).
  set (l5 := map top5_hits (combine (map top5_indices output) target)).
  assert (Hn : (0 < length output)%nat).
  { destruct output; [congruence | simpl; lia]. }
  assert (L1 : length l1 = length output).
  { unfold l1. rewrite length_map, length_combine, length_map, Hlen.
    apply Nat.min_id. }
  assert (L5 : length l5 = length output).
  { unfold l5. rewrite length_map, length_combine, length_map, Hlen.
    apply Nat.min_id. }
  assert (Lc : length (combine output target) = length output).
  { rewrite length_combine, Hlen. apply Nat.min_id. }
  destruct (hits_bounds output Hrows target) as [B1 B5]. fold l1 l5 in B1, B5.
  pose proof (hits_le output Hrows target) as B15. fold l1 l5 in B15.
  rewrite Lc in B5.
  assert (Hpos : (0 < inject_Z (Z.of_nat (length output)))%Q).
  { change 0%Q with (inject_Z 0). rewrite <- Zlt_Qlt. lia. }
  rewrite (np_mean_nonempty l1), (np_mean_nonempty l5).
  - exists (zsum l1), (zsum l5). eexists. eexists.
    split; [reflexivity|]. rewrite L1, L5.
    split; [lia|]. split; [lia|].
    split; [rewrite !Qred_correct; reflexivity|].
    split; [rewrite !Qred_correct; reflexivity|].
    rewrite !Qred_correct. split.
    + apply Qmult_le_0_compat; [discriminate|].
      apply Qle_shift_div_l; [exact Hpos|].
      rewrite Qmult_0_l. change 0%Q with (inject_Z 0).
      rewrite <- Zle_Qle. exact B1.
    + setoid_replace 100%Q with (inject_Z 100 * 1)%Q at 2 by reflexivity.
      apply Qmult_le_l; [reflexivity|].
      apply Qle_shift_div_r; [exact Hpos|].
      rewrite Qmult_1_l. rewrite <- Zle_Qle. exact B5.
  - intros E. rewrite E in L5. simpl in L5. lia.
  - intros E. rewrite E in L1. simpl in L1. lia.
Qed.

Lemma miss_sums (output : matrix) (target : list Z) :
  Forall (fun r => r <> []) output ->
  Forall2 (label_beaten_by 1) output target ->
  zsum (map top1_hit (combine (map top_index output) target)) = 0.
Proof.
  intros Hrows H. induction H as [|r t output target Hrt _ IH]; [reflexivity|].
  inversion Hrows as [|? ? Hr Hrows']; subst.
  cbn [map combine zsum fold_right]. fold zsum.
  unfold zsum in *. rewrite (IH Hrows').
  rewrite (top1_hit_unranked r t Hr (label_beaten_in_range 1 r t Hrt)).
  reflexivity.
Qed.

Lemma miss5_sums (output : matrix) (target : list Z) :
  Forall2 (label_beaten_by 5) output target ->
  zsum (map top5_hits (combine (map top5_indices output) target)) = 0.
Proof.
  induction 1 as [|r t output target Hrt _ IH]; [reflexivity|].
  cbn [map combine zsum fold_right]. fold zsum.
  unfold zsum in *. rewrite IH.
  rewrite (top5_hits_unranked r t (label_beaten_in_range 5 r t Hrt)).
  reflexivity.
Qed.


Lemma Forall2_same_length {A B} (P : A -> B -> Prop) (l : list A) (l' : list B) :
  Forall2 P l l' -> length l' = length l.
Proof.
  induction 1; simpl; congruence.
Qed.

(** X2. A batch in which five classes score strictly above every label (or
    the label is no class at all) has top1 = top5 = 0. *)
Theorem accuracy_np_all_missed (output : matrix) (target : list Z) :
  output <> [] ->
  Forall (fun r => r <> []) output ->
  Forall2 (label_beaten_by 5) output target ->
  accuracy_np output target = Ok (Real 0, Real 0).
Proof.
  intros Hne Hrows H.
  pose proof (Forall2_same_length _ _ _ H) as Hlen.
  assert (H1 : Forall2 (label_beaten_by 1) output target).
  { eapply Forall2_impl; [|exact H]. intros r t Hrt m Em Hm.
    apply (beaten_by_fewer 5 1); [lia|]. exact (Hrt m Em Hm). }
  rewrite accuracy_np_matching by assumption.
  assert (Hn : length output <> 0%nat).
  { intros E. apply Hne. now apply length_zero_iff_nil. }
  assert (L1 : length (map top1_hit (combine (map top_index output) target))
               = length output).
  { rewrite length_map, length_combine, length_map, Hlen. apply Nat.min_id. }
  assert (L5 : length (map top5_hits (combine (map top5_indices output) target))
               = length output).
  { rewrite length_map, length_combine, length_map, Hlen. apply Nat.min_id. }
  rewrite !np_mean_nonempty.
  - rewrite L1, L5, (miss_sums _ _ Hrows H1), (miss5_sums _ _ H).
    rewrite percent_of_none. reflexivity.
  - intros E. rewrite E in L5. simpl in L5. congruence.
  - intros E. rewrite E in L1. simpl in L1. congruence.
Qed.

(** X3. A batch in which some class scores strictly above every label has
    top1 = 0. *)
Theorem accuracy_np_top1_all_missed (output : matrix) (target : list Z) :
  output <> [] ->
  Forall (fun r => r <> []) output ->
  Forall2 (label_beaten_by 1) output target ->
  exists t5, accuracy_np output target = Ok (Real 0, Real t5).
Proof.
  intros Hne Hrows H.
  pose proof (Forall2_same_length _ _ _ H) as Hlen.
  rewrite accuracy_np_matching by assumption.
  assert (Hn : length output <> 0%nat).
  { intros E. apply Hne. now apply length_zero_iff_nil. }
  assert (L1 : length (map top1_hit (combine (map top_index output) target))
               = length output).
  { rewrite length_map, length_combine, length_map, Hlen. apply Nat.min_id. }
  assert (L5 : length (map top5_hits (combine (map top5_indices output) target))
               = length output).
  { rewrite length_map, length_combine, length_map, Hlen. apply Nat.min_id. }
  rewrite !np_mean_nonempty.
  - rewrite L1, (miss_sums _ _ Hrows H), percent_of_none.
    eexists. reflexivity.
  - intros E. rewrite E in L5. simpl in L5. congruence.
  - intros E. rewrite E in L1. simpl in L1. congruence.
Qed.


(** X5. The accuracies of a batch do not depend on the order of its
    samples. *)
Theorem accuracy_np_sample_order (output output' : matrix)
    (target target' : list Z) :
  Forall (fun r => r <> []) output ->
  length target = length output ->
  length target' = length output' ->
  Permutation (combine output target) (combine output' target') ->
  accuracy_np output target = accuracy_np output' target'.
Proof.
  intros Hrows Hlen Hlen' Hp.
  assert (Hrows' : Forall (fun r => r <> []) output').
  { rewrite <- (map_fst_combine output' target') by congruence.
    eapply Permutation_Forall; [apply Permutation_map, Hp|].
    rewrite map_fst_combine by congruence. exact Hrows. }
  rewrite !accuracy_np_matching by assumption.
  rewrite !combine_map_l, !map_map.
  rewrite (np_mean_perm _ _ (Permutation_map
             (fun p => top1_hit (top_index (fst p), snd p)) Hp)).
  rewrite (np_mean_perm _ _ (Permutation_map
             (fun p => top5_hits (top5_indices (fst p), snd p)) Hp)).
  reflexivity.
Qed.

(** X6. How [accuracy_np] ends: in [ValueError] when the number of rows and
    the number of labels differ and neither is one; otherwise in
    [IndexError] when a row has no class; otherwise, on at least one row,
    with a pair. *)
Theorem accuracy_np_outcome (output : matrix) (target : list Z) :
  (shapes_broadcast (length output) (length target) = false ->
   accuracy_np output target = Raise ValueError) /\
  (shapes_broadcast (length output) (length target) = true ->
   Exists (fun r => r = []) output ->
   accuracy_np output target = Raise IndexError) /\
  (shapes_broadcast (length output) (length target) = true ->
   output <> [] ->
   Forall (fun r => r <> []) output ->
   exists top1 top5, accuracy_np output target = Ok (top1, top5)).
Proof.
  unfold accuracy_np. cbv zeta.
  assert (Hl : length (map (firstn 5) (max_indices_of output)) = length output).
  { unfold max_indices_of. rewrite !length_map. reflexivity. }
  pose proof (broadcast_shapes (map (firstn 5) (max_indices_of output)) target)
    as [Bf Bt].
  rewrite Hl in Bf, Bt.
  split; [|split].
  - intros Hs. rewrite (Bf Hs). reflexivity.
  - intros Hs Hex. destruct (Bt Hs) as (l & ->). cbn [rbind].
    rewrite (column0_empty_row output Hex). reflexivity.
  - intros Hs _ Hrows. destruct (Bt Hs) as (l & ->). cbn [rbind].
    rewrite (column0_ranking output Hrows). cbn [rbind].
    pose proof (broadcast_shapes (map top_index output) target) as [_ Ct].
    rewrite length_map in Ct. destruct (Ct Hs) as (l1 & ->). cbn [rbind].
    eauto.
Qed.

End AccuracyFurther.

(** * Further properties of [main] *)

(** The nanosecond counter does not go back over its first [n] readings. *)
Definition monotone_readings (perf : nat -> Z) (n : nat) : Prop :=
  forall k, (S k < n)%nat -> perf k <= perf (S k).

Lemma inference_durations_bounds (perf : nat -> Z) (n first : nat) :
  (forall k, (first <= k)%nat -> (S k < first + 2 * n)%nat ->
             perf k <= perf (S k)) ->
  0 <= inference_durations perf first n /\
  (n <> 0%nat ->
   inference_durations perf first n
   <= perf (first + 2 * n - 1)%nat - perf first).
Proof.
  revert first. induction n as [|n IH]; intros first Hm; [cbn; split; [lia|congruence]|].
  cbn [inference_durations].
  destruct (IH (S (S first))) as [I0 I1].
  { intros k Hk Hlt. apply Hm; lia. }
  assert (H1 : perf first <= perf (S first)) by (apply Hm; lia).
  split; [lia|]. intros _.
  destruct n as [|n].
  - cbn [inference_durations].
    replace (first + 2 * 1 - 1)%nat with (S first) by lia. lia.
  - assert (H2 : perf (S first) <= perf (S (S first))) by (apply Hm; lia).
    specialize (I1 ltac:(discriminate)).
    replace (first + 2 * S (S n) - 1)%nat
      with (S (S first) + 2 * S n - 1)%nat by lia.
    lia.
Qed.

Lemma multiples_below (pf : Z) (n : nat) :
  0 < pf ->
  Z.of_nat (length (filter (fun i => Z.of_nat i mod pf =? 0) (seq 0 n)))
  = (Z.of_nat n + pf - 1) / pf.
Proof.
  intros Hpf. induction n as [|n IH].
  - cbn. symmetry. apply Z.div_small. lia.
  - rewrite seq_S, filter_app, length_app, Nat2Z.inj_add, IH.
    cbn [plus filter].
    pose proof (Z.div_mod (Z.of_nat n) pf ltac:(lia)) as Hdm.
    pose proof (Z.mod_pos_bound (Z.of_nat n) pf Hpf) as Hb.
    set (q := Z.of_nat n / pf) in *. set (r := Z.of_nat n mod pf) in *.
    destruct (Z.eqb_spec r 0) as [E|E]; cbn [length].
    + assert (E1 : (Z.of_nat n + pf - 1) / pf = q)
        by (symmetry; apply (Z.div_unique_pos _ _ q (pf - 1)); lia).
      assert (E2 : (Z.of_nat (S n) + pf - 1) / pf = q + 1)
        by (symmetry; apply (Z.div_unique_pos _ _ (q + 1) 0); lia).
      rewrite E1, E2. lia.
    + assert (E1 : (Z.of_nat n + pf - 1) / pf = q + 1)
        by (symmetry; apply (Z.div_unique_pos _ _ (q + 1) (r - 1)); lia).
      assert (E2 : (Z.of_nat (S n) + pf - 1) / pf = q + 1)
        by (symmetry; apply (Z.div_unique_pos _ _ (q + 1) r); lia).
      rewrite E1, E2. lia.
Qed.

Section MainFurther.

Context {AS : ArgSort} {RT : Runtime}.

(** A pass of the loop body prints at most progress lines. *)
Lemma loop_body_stdout args sess total i (b : Batch) l w w' r :
  loop_body args sess total i b l w = (w', r) ->
  exists ps, stdout w' = stdout w ++ map Progress ps.
Proof.
  intros H. destruct r as [l'|e].
  - destruct w as [pc tc out tr].
    unfold loop_body, print_progress in H.
    cbn [cbind lift ret perf_counter_ns time_time print session_run
       call_accuracy_np
         perf_calls time_calls stdout trace logged] in H.
    repeat match type of H with
    | match ?x with Ok _ => _ | Raise _ => _ end = _ =>
        destruct x; [|discriminate]
    end.
    cbn [cbind lift ret] in H.
    destruct (_ =? 0).
    + cbn [cbind lift ret print perf_calls time_calls stdout trace logged] in H.
      destruct (fdiv (of_nat _) _) as [rate|]; [|discriminate].
      cbn [cbind lift ret print perf_calls time_calls stdout trace logged] in H.
      destruct (fdiv (fmul _ _) _) as [ms|]; [|discriminate].
      cbn [cbind lift ret print perf_calls time_calls stdout trace logged] in H.
      apply pair_equal_spec in H. destruct H as [<- _].
      eexists [_]. reflexivity.
    + cbn [cbind lift ret print perf_calls time_calls stdout trace logged] in H.
      apply pair_equal_spec in H. destruct H as [<- _].
      exists []. cbn. rewrite app_nil_r. reflexivity.
  - exists []. rewrite (loop_body_raise _ _ _ _ _ _ _ _ _ H).
    cbn. rewrite app_nil_r. reflexivity.
Qed.

Lemma loop_stdout args sess total (bs : list Batch) :
  forall i l w w' r,
    loop args sess total i bs l w = (w', r) ->
    exists ps, stdout w' = stdout w ++ map Progress ps.
Proof.
  induction bs as [|b bs IH]; intros i l w w' r H.
  - cbn in H. apply pair_equal_spec in H. destruct H as [<- _].
    exists []. cbn. rewrite app_nil_r. reflexivity.
  - cbn [loop] in H. unfold cbind, next_batch in H.
    destruct (loop_body args sess total i b l (logged (Fetched i) w))
      as [w1 [l1|e]] eqn:Eb.
    + destruct (loop_body_stdout _ _ _ _ _ _ _ _ _ Eb) as (ps1 & E1).
      destruct (IH _ _ _ _ _ H) as (ps2 & E2).
      exists (ps1 ++ ps2). rewrite E2, E1, map_app, app_assoc. reflexivity.
    + apply pair_equal_spec in H. destruct H as [<- _].
      exact (loop_body_stdout _ _ _ _ _ _ _ _ _ Eb).
Qed.

Lemma evaluate_stdout args (loader : list Batch) w r :
  evaluate args loader world0 = (w, r) ->
  exists ps, stdout w = map Progress ps.
Proof.
  intros H. destruct (evaluate_cases _ _ _ _ _ H) as [[Hout _]|[g Hl]].
  - exists []. exact Hout.
  - exact (loop_stdout _ _ _ _ _ _ _ _ _ Hl).
Qed.

(** The report after the loop: it fails exactly on a count of zero. *)
Lemma report_cases (l : Locals) (w : World) :
  (total_predictions l = 0 ->
   report l w
   = ({| perf_calls := perf_calls w; time_calls := time_calls w;
         stdout := stdout w ++
                   [Summary (avg (top1 l)) (fsub (of_int 100) (avg (top1 l)))
                            (avg (top5 l)) (fsub (of_int 100) (avg (top5 l)))];
         trace := trace w |},
      Raise ZeroDivisionError)) /\
  (total_predictions l <> 0 ->
   exists ms,
     report l w
     = ({| perf_calls := perf_calls w; time_calls := time_calls w;
           stdout := (stdout w ++
                     [Summary (avg (top1 l)) (fsub (of_int 100) (avg (top1 l)))
                              (avg (top5 l)) (fsub (of_int 100) (avg (top5 l)))])
                     ++ [Latency ms];
           trace := trace w |},
        Ok tt)).
Proof.
  unfold report, int_truediv. cbn [cbind print lift of_int fdiv].
  split.
  - intros ->. reflexivity.
  - intros Hne.
    destruct (Qeq_bool (inject_Z (total_predictions l)) 0) eqn:Ez.
    + exfalso. apply Hne. apply Qeq_bool_iff in Ez.
      unfold Qeq in Ez. cbn in Ez. lia.
    + cbn [cbind print lift of_int fdiv].
      change (Qeq_bool (inject_Z 1000000) 0) with false.
      cbn [cbind print lift of_int fdiv perf_calls time_calls stdout trace logged].
      eexists. reflexivity.
Qed.

End MainFurther.

Section MainFurtherTheorems.

Context {AS : ArgSort} {RT : Runtime}.

Lemma loop_print_freq_zero args sess total (bs : list Batch) :
  print_freq args = 0 ->
  forall i l w w' r,
    loop args sess total i bs l w = (w', r) ->
    stdout w' = stdout w /\ (bs <> [] -> exists e, r = Raise e).
Proof.
  intros Hpf. destruct bs as [|b bs]; intros i l w w' r H.
  - cbn in H. apply pair_equal_spec in H. destruct H as [<- _].
    split; [reflexivity | congruence].
  - cbn [loop] in H. unfold cbind, next_batch in H.
    destruct (loop_body args sess total i b l (logged (Fetched i) w))
      as [w1 [l1|e]] eqn:Eb.
    + exfalso.
      destruct (loop_body_ok _ _ _ _ _ _ _ _ _ Eb)
        as (_ & _ & _ & _ & _ & _ & _ & _ & _ & _ & Hne & _).
      exact (Hne Hpf).
    + apply pair_equal_spec in H. destruct H as [<- <-].
      split; [exact (loop_body_raise _ _ _ _ _ _ _ _ _ Eb) | eauto].
Qed.

(** X7. With [--print-freq 0] no run completes and no progress line is
    printed: the first pass of the loop stops at [i % 0], and a run without
    batches at the division by the count of zero. *)
Theorem print_freq_zero_never_completes args (loader : list Batch) w r :
  print_freq args = 0 ->
  main args loader world0 = (w, r) ->
  (exists e, r = Raise e) /\ progress_indices (stdout w) = [].
Proof.
  intros Hpf H. unfold main, cbind in H.
  destruct (evaluate args loader world0) as [w1 [l|e]] eqn:Ev.
  - destruct (evaluate_ok _ _ _ _ _ Ev) as (g & Hl).
    destruct (loop_print_freq_zero _ _ _ _ Hpf _ _ _ _ _ Hl) as [Hout Hr].
    destruct loader as [|b bs].
    + destruct (loop_totals _ _ _ _ _ _ _ _ _ Hl) as [Ht _]. cbn in Ht.
      rewrite (proj1 (report_cases l w1) Ht) in H.
      apply pair_equal_spec in H. destruct H as [<- <-].
      split; [eauto|]. cbn [stdout]. rewrite Hout. reflexivity.
    + destruct (Hr ltac:(discriminate)) as [e He]. discriminate.
  - apply pair_equal_spec in H. destruct H as [<- <-]. split; [eauto|].
    destruct (evaluate_cases _ _ _ _ _ Ev) as [[Hout _]|[g Hl]].
    + rewrite Hout. reflexivity.
    + destruct (loop_print_freq_zero _ _ _ _ Hpf _ _ _ _ _ Hl) as [Hout _].
      rewrite Hout. reflexivity.
Qed.


(** X10. When the nanosecond counter does not go back over the readings of
    the run, [elapsed_time] is not negative and at most the time from the
    first reading to the last. *)
Theorem elapsed_time_within_span args (loader : list Batch) w l :
  loader <> [] ->
  monotone_readings perf_counter_ns_at (2 * length loader) ->
  evaluate args loader world0 = (w, Ok l) ->
  0 <= elapsed_time l
  <= perf_counter_ns_at (2 * length loader - 1) - perf_counter_ns_at 0.
Proof.
  intros Hne Hmono H.
  destruct (evaluate_ok _ _ _ _ _ H) as (g & Hl).
  destruct (loop_totals _ _ _ _ _ _ _ _ _ Hl) as [_ He].
  cbn [initial_locals elapsed_time after_first_reading perf_calls world0] in He.
  destruct (inference_durations_bounds perf_counter_ns_at (length loader) 0)
    as [B0 B1].
  { intros k _ Hk. apply Hmono. exact Hk. }
  rewrite He. cbn [plus] in B1. split; [lia|]. apply B1.
  intros E. apply Hne. now apply length_zero_iff_nil.
Qed.

(** X11. A run of at least one batch that fails has printed progress lines
    only, no summary and no latency; a run that completes has printed its
    progress lines, then the summary, then the latency. *)
Theorem report_only_after_the_loop args (loader : list Batch) w r :
  loader <> [] ->
  main args loader world0 = (w, r) ->
  exists ps,
    (forall e, r = Raise e -> stdout w = map Progress ps) /\
    (r = Ok tt ->
     exists a b c d ms,
       stdout w = map Progress ps ++ [Summary a b c d; Latency ms]).
Proof.
  intros Hne H. unfold main, cbind in H.
  destruct (evaluate args loader world0) as [w1 [l|e1]] eqn:Ev.
  - destruct (evaluate_stdout _ _ _ _ Ev) as (ps & Hps).
    destruct (evaluate_ok _ _ _ _ _ Ev) as (g & Hl).
    destruct (loop_totals _ _ _ _ _ _ _ _ _ Hl) as [Ht _].
    cbn [initial_locals total_predictions] in Ht.
    assert (Hz : total_predictions l <> 0).
    { rewrite Ht. destruct loader; [congruence | cbn; lia]. }
    destruct (proj2 (report_cases l w1) Hz) as (ms & Er).
    rewrite Er in H. apply pair_equal_spec in H. destruct H as [<- <-].
    exists ps. split; [discriminate|]. intros _.
    cbn [stdout]. rewrite Hps, <- app_assoc. cbn [app]. eauto 6.
  - apply pair_equal_spec in H. destruct H as [<- <-].
    destruct (evaluate_stdout _ _ _ _ Ev) as (ps & Hps).
    exists ps. split; [auto | discriminate].
Qed.

(** X12. Once the loop has reached its end on at least one batch the
    report cannot fail: the run completes. *)
Theorem completed_loop_is_reported args (loader : list Batch) w1 l :
  loader <> [] ->
  evaluate args loader world0 = (w1, Ok l) ->
  exists w, main args loader world0 = (w, Ok tt).
Proof.
  intros Hne Ev. unfold main, cbind. rewrite Ev.
  destruct (evaluate_ok _ _ _ _ _ Ev) as (g & Hl).
  destruct (loop_totals _ _ _ _ _ _ _ _ _ Hl) as [Ht _].
  cbn [initial_locals total_predictions] in Ht.
  assert (Hz : total_predictions l <> 0).
  { rewrite Ht. destruct loader; [congruence | cbn; lia]. }
  destruct (proj2 (report_cases l w1) Hz) as (ms & Er).
  rewrite Er. eauto.
Qed.

(** X13. With a positive [--print-freq] a loop that reaches its end has
    printed the number of batches over the frequency, rounded up, progress
    lines. *)
Theorem progress_line_count args (loader : list Batch) w l :
  0 < print_freq args ->
  evaluate args loader world0 = (w, Ok l) ->
  Z.of_nat (length (progress_indices (stdout w)))
  = (Z.of_nat (length loader) + print_freq args - 1) / print_freq args.
Proof.
  intros Hpf H. destruct (evaluate_ok _ _ _ _ _ H) as (g & Hl).
  destruct (loop_progress _ _ _ _ _ _ _ _ _ Hl) as (k & _ & Hk & Hout).
  rewrite (Hk l eq_refl) in Hout. cbn in Hout. rewrite Hout.
  unfold prints_at. apply multiples_below, Hpf.
Qed.

End MainFurtherTheorems.

(** * Further concrete runs *)

Definition demo_zero_args : Args :=
  {| model_input := "model.onnx"%string; batch_size := 2; print_freq := 0 |}.


Definition demo_zero_outcome : World * result unit :=
  Eval vm_compute in
    main (AS := insertion_ArgSort) (RT := demo_runtime)
      demo_zero_args demo_loader world0.

(** A row of six classes with rising scores, and the batch of C4. *)
Definition rising_row : row := [0; 1; 2; 3; 4; 5]%Q.

Definition half_right_output : matrix :=
  [[9#10; 1#10; 0]; [8#10; 1#10; 1#10]]%Q.

Lemma rising_row_beaten : label_beaten_by 5 rising_row 0.
Proof.
  intros m Em _. assert (m = 0%nat) by lia. subst m.
  exists [1; 2; 3; 4; 5]%nat. split.
  - repeat constructor; cbn; intuition lia.
  - split; [reflexivity|].
    intros j Hj. cbn in Hj.
    destruct Hj as [<-|[<-|[<-|[<-|[<-|[]]]]]]; split;
      try (cbn; lia); reflexivity.
Qed.

Lemma out_of_range_beaten (k : nat) : label_beaten_by k [1; 2]%Q 7.
Proof.
  intros m Em Hm. cbn in Hm. lia.
Qed.

Lemma accuracy_np_percentages_witness :
  exists (h1 h5 : Z) (t1 t5 : Q),
    accuracy_np (AS := insertion_ArgSort) half_right_output [1; 0]
    = Ok (Real t1, Real t5) /\
    0 <= h1 <= h5 /\ h5 <= 2 /\
    (t1 == 100 * (inject_Z h1 / inject_Z 2))%Q /\
    (t5 == 100 * (inject_Z h5 / inject_Z 2))%Q /\
    (0 <= t1)%Q /\ (t5 <= 100)%Q.
Proof.
  apply (accuracy_np_percentages (AS := insertion_ArgSort)
           half_right_output [1; 0]).
  - discriminate.
  - repeat constructor; discriminate.
  - reflexivity.
Defined.

Lemma accuracy_np_all_missed_witness :
  accuracy_np (AS := insertion_ArgSort) [rising_row; [1; 2]%Q] [0; 7]
  = Ok (Real 0, Real 0).
Proof.
  apply (accuracy_np_all_missed (AS := insertion_ArgSort)).
  - discriminate.
  - repeat constructor; discriminate.
  - constructor; [exact rising_row_beaten|].
    constructor; [exact (out_of_range_beaten 5) | constructor].
Defined.

Lemma accuracy_np_top1_all_missed_witness :
  exists t5,
    accuracy_np (AS := insertion_ArgSort) [[1#10; 9#10]%Q] [0]
    = Ok (Real 0, Real t5).
Proof.
  apply (accuracy_np_top1_all_missed (AS := insertion_ArgSort)).
  - discriminate.
  - repeat constructor; discriminate.
  - constructor; [|constructor].
    intros m Em _. assert (m = 0%nat) by lia. subst m.
    exists [1%nat]. split; [repeat constructor; cbn; tauto|].
    split; [reflexivity|].
    intros j [<-|[]]. split; [cbn; lia | reflexivity].
Defined.


Lemma accuracy_np_sample_order_witness :
  accuracy_np (AS := insertion_ArgSort) half_right_output [1; 0]
  = accuracy_np (AS := insertion_ArgSort)
      [[8#10; 1#10; 1#10]; [9#10; 1#10; 0]]%Q [0; 1].
Proof.
  apply (accuracy_np_sample_order (AS := insertion_ArgSort)).
  - repeat constructor; discriminate.
  - reflexivity.
  - reflexivity.
  - apply perm_swap.
Defined.

Lemma print_freq_zero_never_completes_witness :
  main (AS := insertion_ArgSort) (RT := demo_runtime)
    demo_zero_args demo_loader world0
  = (fst demo_zero_outcome, snd demo_zero_outcome) /\
  (exists e, snd demo_zero_outcome = Raise e) /\
  progress_indices (stdout (fst demo_zero_outcome)) = [].
Proof.
  assert (E : main (AS := insertion_ArgSort) (RT := demo_runtime)
                demo_zero_args demo_loader world0
              = (fst demo_zero_outcome, snd demo_zero_outcome))
    by (vm_compute; reflexivity).
  split; [exact E|].
  exact (print_freq_zero_never_completes (AS := insertion_ArgSort)
           (RT := demo_runtime) demo_zero_args demo_loader _ _ eq_refl E).
Defined.


Lemma elapsed_time_within_span_witness :
  0 <= elapsed_time demo_locals <= 23000 - 0.
Proof.
  apply (elapsed_time_within_span (AS := insertion_ArgSort)
           (RT := demo_runtime) demo_args demo_loader demo_world demo_locals).
  - discriminate.
  - intros [|[|[|[|[|k]]]]] Hk; cbn in Hk |- *; lia.
  - vm_compute. reflexivity.
Defined.

Lemma report_only_after_the_loop_witness :
  exists ps,
    (forall e, Ok tt = Raise e -> stdout demo_main_world = map Progress ps) /\
    (Ok tt = Ok tt ->
     exists a b c d ms,
       stdout demo_main_world = map Progress ps ++ [Summary a b c d; Latency ms]).
Proof.
  apply (report_only_after_the_loop (AS := insertion_ArgSort)
           (RT := demo_runtime) demo_args demo_loader demo_main_world (Ok tt)).
  - discriminate.
  - vm_compute. reflexivity.
Defined.

Lemma completed_loop_is_reported_witness :
  exists w,
    main (AS := insertion_ArgSort) (RT := demo_runtime)
      demo_args demo_loader world0 = (w, Ok tt).
Proof.
  apply (completed_loop_is_reported (AS := insertion_ArgSort)
           (RT := demo_runtime) demo_args demo_loader demo_world demo_locals).
  - discriminate.
  - vm_compute. reflexivity.
Defined.

Lemma progress_line_count_witness :
  Z.of_nat (length (progress_indices (stdout demo_world))) = (3 + 2 - 1) / 2.
Proof.
  apply (progress_line_count (AS := insertion_ArgSort) (RT := demo_runtime)
           demo_args demo_loader demo_world demo_locals).
  - reflexivity.
  - vm_compute. reflexivity.
Defined.
